(** * Double Machine Learning: first-stage and final-stage wrappers

    A shallow embedding of [econml/dml.py]: the nuisance wrapper
    [_FirstStageWrapper], the final-stage wrapper [_FinalWrapper] and the
    model properties of [DML].  Floating-point numbers are read as exact
    rationals ([Q]); numpy arrays of one or two dimensions are lists and
    lists of rows.  The underlying scikit-learn estimators and featurizers
    are opaque: they appear as type classes whose methods are the calls the
    wrappers make on them. *)

From Stdlib Require Import List Bool Arith ZArith QArith Qabs Lia Lqa.
Import ListNotations.
Local Open Scope Q_scope.

(** ** numpy arrays *)

Definition matrix := list (list Q).

(** An array is a vector (one axis) or a matrix (two axes, a list of rows). *)
Inductive ndarray :=
| Vec (v : list Q)
| Mat (m : matrix).

(** Output of the effect reshaping: up to three axes. *)
Inductive tensor :=
| T1 (v : list Q)
| T2 (m : matrix)
| T3 (t : list matrix).

Definition ncols (m : matrix) : nat :=
  match m with [] => O | r :: _ => length r end.

(** [A.shape[0]] *)
Definition nrows (A : ndarray) : nat :=
  match A with Vec v => length v | Mat m => length m end.

(** [A.ravel()], [A.flatten()] *)
Definition ravel (A : ndarray) : list Q :=
  match A with Vec v => v | Mat m => concat m end.

(** The rows of an array, a vector being read as a one-column block. *)
Definition rows_of (A : ndarray) : matrix :=
  match A with Vec v => map (fun y => [y]) v | Mat m => m end.

Fixpoint map2 {A B C : Type} (f : A -> B -> C) (l : list A) (l' : list B) : list C :=
  match l, l' with
  | a :: l, b :: l' => f a b :: map2 f l l'
  | _, _ => []
  end.

(** [np.ones((n, k))] and [np.ones(n)] *)
Definition ones (n k : nat) : matrix := repeat (repeat 1 k) n.
Definition ones1 (n : nat) : list Q := repeat 1 n.

(** [np.zeros_like] on a matrix *)
Definition zeros_like (m : matrix) : matrix := map (map (fun _ => 0)) m.

(** [np.eye(d)]: row [t] is the [t]-th unit vector. *)
Definition unit_vector (d t : nat) : list Q :=
  map (fun j => if Nat.eqb j t then 1 else 0) (seq 0 d).
Definition eye (d : nat) : matrix := map (unit_vector d) (seq 0 d).

Definition is_zero (x : Q) : bool := Qeq_bool x 0.

(** [np.count_nonzero] *)
Definition count_nonzero (A : ndarray) : nat :=
  length (filter (fun x => negb (is_zero x)) (ravel A)).

(** [np.any(np.all(m == 0, axis=0))]: some column is zero in every row. *)
Definition any_all_zero_axis0 (m : matrix) : bool :=
  existsb (fun j => forallb (fun r => is_zero (nth j r 0)) m) (seq 0 (ncols m)).

(** [np.any(np.all(m == 0, axis=1))]: some row is zero in every column. *)
Definition any_all_zero_axis1 (m : matrix) : bool :=
  existsb (forallb is_zero) m.

(** [np.sign] followed by the source's
    [sign_T_res[(sign_T_res < 1) & (sign_T_res > -1)] = 1]. *)
Definition sign (x : Q) : Q :=
  if Qle_bool 0 x then (if Qle_bool x 0 then 0 else 1) else -(1).
Definition sign_zero_to_one (s : Q) : Q :=
  if negb (Qle_bool 1 s) && negb (Qle_bool s (-(1))) then 1 else s.

(** [np.clip(x, lo, np.inf)] *)
Definition clip_below (lo x : Q) : Q := if Qle_bool lo x then x else lo.

Definition eps : Q := 1 # 100000.

(** [prediction -= intercept]: the one-row intercept is broadcast over
    the rows of the prediction. *)
Definition isub (P c : ndarray) : ndarray :=
  match P with
  | Vec v => Vec (map (fun p => p - nth 0 (ravel c) 0) v)
  | Mat m => Mat (map (fun r => map2 Qminus r (ravel c)) m)
  end.

(** [A / c] for a vector [c] of one entry per sample.  With [as_column]
    the divisor has been reshaped to [(-1, 1)] and numpy broadcasts it along
    the rows; otherwise it is broadcast along the last axis. *)
Definition np_div (A : ndarray) (c : list Q) (as_column : bool) : ndarray :=
  if as_column
  then match A with
       | Mat m => Mat (map2 (fun r ci => map (fun y => y / ci) r) m c)
       | Vec v => Mat (map (fun ci => map (fun y => y / ci) v) c)
       end
  else match A with
       | Vec v => Vec (map2 Qdiv v c)
       | Mat m => Mat (map (fun r => map2 Qdiv r c) m)
       end.

(** ** Helpers of [econml.utilities] *)

(** Modelled from the spec: [shape], the tuple of axis lengths. *)
Definition shape (A : ndarray) : list nat :=
  match A with Vec v => [length v] | Mat m => [length m; ncols m] end.

(** Modelled from the spec: [ndim], the number of axes. *)
Definition ndim (A : ndarray) : nat := length (shape A).

(** Modelled from the spec: [hstack], the column-wise concatenation of
    two blocks with the same rows. *)
Definition hstack (A B : matrix) : matrix := map2 (@app Q) A B.

(** One row of the cross product: every entry of [a] times every entry of
    [b], the index of [a] running fastest. *)
Definition cross_row (a b : list Q) : list Q :=
  flat_map (fun bj => map (fun ai => ai * bj) a) b.

(** Modelled from the spec: [cross_product] (FeatureCombiner, section 4.1),
    one row per input row, each column the product of one column of the
    first block and one column of the second (row-wise outer product,
    flattened); a vector stands for a one-column block. *)
Definition cross_product (A : matrix) (B : ndarray) : matrix :=
  map2 cross_row A (rows_of B).

(** Modelled from the spec: [add_intercept], the feature block augmented
    with an intercept column of ones. *)
Definition add_intercept (X : matrix) : matrix :=
  map (fun r => 1 :: r) X.

(** Truncation towards zero, [astype(int)]. *)
Definition to_int (x : Q) : Q := inject_Z (Z.quot (Qnum x) (Zpos (Qden x))).

Fixpoint label_from (j : nat) (r : list Q) : Q :=
  match r with
  | [] => 0
  | x :: r => x * inject_Z (Z.of_nat j) + label_from (S j) r
  end.

Definition labels_of (m : matrix) : ndarray :=
  Vec (map (fun r => to_int (label_from 1 r)) m).

(** Modelled from the spec: [inverse_onehot] (TreatmentEncoder.to_label,
    section 4.2), the inverse of the one-hot encoding whose baseline (first)
    category has no column: a row with no column set is category 0, a row
    with column [j] set is category [j + 1].  A vector is not a one-hot
    block and has no labels.  The coverage check that section 4.2 lists
    with this operation is, in the source, the guard that [fit] runs before
    it calls the conversion. *)
Definition inverse_onehot (T : ndarray) : option ndarray :=
  match T with
  | Mat m => Some (labels_of m)
  | Vec _ => None
  end.

(** Modelled from the spec: [broadcast_unit_treatments] (CATEPredictor,
    section 4.5): every row of [X] is repeated once per unit treatment
    vector, the copies of a row staying consecutive. *)
Definition broadcast_unit_treatments (X : matrix) (d_t : nat) : matrix * matrix :=
  (flat_map (fun x => repeat x d_t) X,
   flat_map (fun _ => eye d_t) X).

(** Modelled from the spec: [reshape_treatmentwise_effects] (section 4.5):
    the flat block with one row per (sample, treatment) pair and one column
    per outcome becomes the (samples, d_y, d_t) tensor whose entry
    [i, y, t] is entry [y] of flat row [i * d_t + t].  [d_t] and [d_y] are
    the shape tails recorded at fit time; an empty tail is a residual that
    was a vector, and the corresponding axis is absent from the result. *)
Definition reshape_treatmentwise_effects (A : ndarray) (d_t d_y : list nat) : tensor :=
  match d_t, d_y with
  | k :: _, m :: _ =>
      let P := rows_of A in
      T3 (map (fun i =>
                 map (fun y => map (fun t => nth y (nth (i * k + t) P []) 0) (seq 0 k))
                     (seq 0 m))
              (seq 0 (length P / k)))
  | k :: _, [] =>
      let v := ravel A in
      T2 (map (fun i => map (fun t => nth (i * k + t) v 0) (seq 0 k))
              (seq 0 (length v / k)))
  | [], _ :: _ => T2 (rows_of A)
  | [], [] => T1 (ravel A)
  end.

(** ** Effects: exceptions, warnings and the mutated wrapper *)

(** The exceptions the wrappers raise.  Those raised by [dml.py] itself are
    [AttributeError]s, told apart here by their message; the last two come
    from Python (a missing attribute) and from numpy. *)
Inductive error :=
| InvalidFoldSplit
    (* "Provided crossfit folds contain training splits that don't contain all treatments" *)
| InfeasibleConfiguration_weight_trick_X_None
    (* "Cannot use this method with X=None. Consider using the LinearDML estimator." *)
| InfeasibleConfiguration_X_None_no_intercept
    (* "Cannot have X=None and also not allow for a CATE intercept!" *)
| InfeasibleConfiguration_combination
    (* "This combination is not a feasible one!" *)
| UnsupportedTreatmentDimension
    (* "This method can only be used with single-dimensional continuous treatment
        or binary categorical treatment." *)
| NotFitted
    (* an attribute set by fit is read before fit *)
| ShapeError.
    (* numpy rejects an axis or a shape *)

Definition is_InfeasibleConfiguration (e : error) : bool :=
  match e with
  | InfeasibleConfiguration_weight_trick_X_None
  | InfeasibleConfiguration_X_None_no_intercept
  | InfeasibleConfiguration_combination => true
  | _ => false
  end.

Inductive warning :=
| NonzeroInterceptWarning.
    (* UserWarning "The final model has a nonzero intercept for at least one outcome; ..." *)

(** A call either returns a value or raises; in both cases the object it
    ran on is left in some state and some warnings were emitted. *)
Inductive outcome (S A : Type) :=
| Ok (a : A) (s : S) (log : list warning)
| Raise (e : error) (s : S) (log : list warning).
Arguments Ok {S A}.
Arguments Raise {S A}.

Definition M (S A : Type) := S -> outcome S A.

Definition ret {S A} (a : A) : M S A := fun s => Ok a s [].

Definition bind {S A B} (c : M S A) (k : A -> M S B) : M S B :=
  fun s =>
    match c s with
    | Ok a s' log =>
        match k a s' with
        | Ok b s'' log' => Ok b s'' (log ++ log')
        | Raise e s'' log' => Raise e s'' (log ++ log')
        end
    | Raise e s' log => Raise e s' log
    end.

Definition raise {S A} (e : error) : M S A := fun s => Raise e s [].
Definition warn {S} (w : warning) : M S unit := fun s => Ok tt s [w].
Definition get {S} : M S S := fun s => Ok s s [].
Definition put {S} (s : S) : M S unit := fun _ => Ok tt s [].

Declare Scope py_scope.
Delimit Scope py_scope with py.
Notation "x <- c ;; k" := (bind c (fun x => k))
  (at level 61, c at next level, right associativity) : py_scope.
Notation "c ;;; k" := (bind c (fun _ => k))
  (at level 61, right associativity) : py_scope.
Local Open Scope py_scope.

(** ** The wrapped scikit-learn objects *)

(** The arguments of one [fit] call on an underlying model; a keyword that
    is not passed is [None]. *)
Record fit_call := {
  design : matrix;
  target : ndarray;
  sample_weight : option (list Q);
  sample_var : option ndarray;
  groups : option (list nat)
}.

(** A scikit-learn estimator.  [model_score] is [None] on an object that has
    no [score] attribute. *)
Class Regressor (Mdl : Type) := {
  clone : Mdl -> Mdl;
  model_fit : Mdl -> fit_call -> Mdl;
  model_predict : Mdl -> matrix -> ndarray;
  model_predict_proba : Mdl -> matrix -> matrix;
  model_score : Mdl -> option (matrix -> ndarray -> option (list Q) -> Q)
}.

(** A scikit-learn transformer used as featurizer. *)
Class Transformer (Fz : Type) := {
  clone_featurizer : Fz -> Fz;
  fit_transform : Fz -> matrix -> Fz * matrix;
  transform : Fz -> matrix -> matrix
}.

(** Modelled from the spec: [fit_with_groups] forwards [groups] opaquely to
    the fit of the underlying model. *)
Definition fit_with_groups {Mdl} {R : Regressor Mdl} (model : Mdl) (X : matrix) (y : ndarray)
    (groups : option (list nat)) (sample_weight : option (list Q)) : Mdl :=
  model_fit model {| design := X; target := y; sample_weight := sample_weight;
                     sample_var := None; groups := groups |}.

(** ** [_FirstStageWrapper] *)

Module _FirstStageWrapper.
Section Wrapper.
Context {Mdl Fz : Type} {R : Regressor Mdl} {Tr : Transformer Fz}.

Record t := {
  _model : Mdl;
  _featurizer : option Fz;
  _is_Y : bool;
  _linear_first_stages : bool;
  _discrete_treatment : bool
}.

Definition set_model (self : t) (m : Mdl) : t :=
  {| _model := m; _featurizer := _featurizer self; _is_Y := _is_Y self;
     _linear_first_stages := _linear_first_stages self;
     _discrete_treatment := _discrete_treatment self |}.

Definition set_featurizer (self : t) (f : Fz) : t :=
  {| _model := _model self; _featurizer := Some f; _is_Y := _is_Y self;
     _linear_first_stages := _linear_first_stages self;
     _discrete_treatment := _discrete_treatment self |}.

Definition __init__ (model : Mdl) (is_Y : bool) (featurizer : option Fz)
    (linear_first_stages discrete_treatment : bool) : t :=
  {| _model := clone model;
     _featurizer := option_map clone_featurizer featurizer;
     _is_Y := is_Y;
     _linear_first_stages := linear_first_stages;
     _discrete_treatment := discrete_treatment |}.

(** [self._featurizer.fit_transform(X) if fitting else self._featurizer.transform(X)];
    fitting replaces the featurizer's state. *)
Definition featurize (X : matrix) (fitting : bool) : M t matrix :=
  self <- get ;;
  match _featurizer self with
  | None => ret X
  | Some f =>
      if fitting
      then put (set_featurizer self (fst (fit_transform f X))) ;;;
           ret (snd (fit_transform f X))
      else ret (transform f X)
  end.

Definition _combine (X W : option matrix) (n_samples : nat) (fitting : bool) : M t matrix :=
  match X with
  | None =>
      (* if both X and W are None, just return a column of ones *)
      ret (match W with Some w => w | None => ones n_samples 1 end)
  | Some x =>
      let XW := match W with Some w => hstack x w | None => x end in
      self <- get ;;
      if _is_Y self && _linear_first_stages self
      then F <- featurize x fitting ;;
           ret (cross_product XW (Mat (hstack (ones (length XW) 1) F)))
      else ret XW
  end.

(** The guard of [fit] on the one-hot target, then the conversion to
    labels.  On a vector [np.all(.., axis=0)] is a single boolean and
    [axis=1] does not exist. *)
Definition labels_checked (Target : ndarray) : M t ndarray :=
  match Target with
  | Mat m =>
      if any_all_zero_axis0 m || negb (any_all_zero_axis1 m)
      then raise InvalidFoldSplit
      else match inverse_onehot Target with
           | Some l => ret l
           | None => raise ShapeError
           end
  | Vec v =>
      if forallb is_zero v then raise InvalidFoldSplit else raise ShapeError
  end.

Definition fit (X W : option matrix) (Target : ndarray)
    (sample_weight : option (list Q)) (groups : option (list nat)) : M t unit :=
  self <- get ;;
  Target <- (if negb (_is_Y self) && _discrete_treatment self
             then labels_checked Target
             else ret Target) ;;
  D <- _combine X W (nrows Target) true ;;
  self <- get ;;
  put (set_model self (fit_with_groups (_model self) D Target groups sample_weight)).

Definition predict (X W : option matrix) : M t ndarray :=
  let n_samples :=
    match X with
    | Some x => length x
    | None => match W with Some w => length w | None => 1%nat end
    end in
  self <- get ;;
  D <- _combine X W n_samples false ;;
  self <- get ;;
  if negb (_is_Y self) && _discrete_treatment self
  then ret (Mat (map (skipn 1) (model_predict_proba (_model self) D)))
  else ret (model_predict (_model self) D).

Definition score (X W : option matrix) (Target : ndarray)
    (sample_weight : option (list Q)) : M t (option Q) :=
  self <- get ;;
  match model_score (_model self) with
  | Some model_score_of =>
      Target <- (if negb (_is_Y self) && _discrete_treatment self
                 then match inverse_onehot Target with
                      | Some l => ret l
                      | None => raise ShapeError
                      end
                 else ret Target) ;;
      D <- _combine X W (nrows Target) true ;;
      ret (Some (model_score_of D Target sample_weight))
  | None => ret None
  end.

End Wrapper.
Arguments t : clear implicits.
End _FirstStageWrapper.

(** ** [_FinalWrapper] *)

Module _FinalWrapper.
Section Wrapper.
Context {Mdl Fz : Type} {R : Regressor Mdl} {Tr : Transformer Fz}.

(** What [self._featurizer] refers to.  The clone of the user's featurizer
    lives in [_original_featurizer] only: [self._featurizer] is that very
    object, or a pipeline holding it, so fitting one fits the other. *)
Inductive featurizer_ref :=
| original_featurizer
    (* self._featurizer = self._original_featurizer *)
| add_intercept_trans
    (* FunctionTransformer(add_intercept, validate=True) *)
| pipeline.
    (* Pipeline([('featurize', self._original_featurizer),
                 ('add_intercept', add_intercept_trans)]) *)

(** [_d_t], [_d_y] and [_intercept] do not exist before [fit] assigns
    them: the outer [option] is the presence of the attribute. *)
Record t := {
  _model : Mdl;
  _use_weight_trick : bool;
  _original_featurizer : option Fz;
  _fit_cate_intercept : bool;
  _featurizer : featurizer_ref;
  _d_t : option (list nat);
  _d_y : option (list nat);
  _intercept : option (option ndarray)
}.

Definition set_model (self : t) (m : Mdl) : t :=
  {| _model := m; _use_weight_trick := _use_weight_trick self;
     _original_featurizer := _original_featurizer self;
     _fit_cate_intercept := _fit_cate_intercept self;
     _featurizer := _featurizer self; _d_t := _d_t self; _d_y := _d_y self;
     _intercept := _intercept self |}.

Definition set_original_featurizer (self : t) (f : Fz) : t :=
  {| _model := _model self; _use_weight_trick := _use_weight_trick self;
     _original_featurizer := Some f;
     _fit_cate_intercept := _fit_cate_intercept self;
     _featurizer := _featurizer self; _d_t := _d_t self; _d_y := _d_y self;
     _intercept := _intercept self |}.

Definition set_d_t (self : t) (d : list nat) : t :=
  {| _model := _model self; _use_weight_trick := _use_weight_trick self;
     _original_featurizer := _original_featurizer self;
     _fit_cate_intercept := _fit_cate_intercept self;
     _featurizer := _featurizer self; _d_t := Some d; _d_y := _d_y self;
     _intercept := _intercept self |}.

Definition set_d_y (self : t) (d : list nat) : t :=
  {| _model := _model self; _use_weight_trick := _use_weight_trick self;
     _original_featurizer := _original_featurizer self;
     _fit_cate_intercept := _fit_cate_intercept self;
     _featurizer := _featurizer self; _d_t := _d_t self; _d_y := Some d;
     _intercept := _intercept self |}.

Definition set_intercept (self : t) (c : option ndarray) : t :=
  {| _model := _model self; _use_weight_trick := _use_weight_trick self;
     _original_featurizer := _original_featurizer self;
     _fit_cate_intercept := _fit_cate_intercept self;
     _featurizer := _featurizer self; _d_t := _d_t self; _d_y := _d_y self;
     _intercept := Some c |}.

(** [if featurizer:] is read as [featurizer is not None]. *)
Definition __init__ (model_final : Mdl) (fit_cate_intercept : bool)
    (featurizer : option Fz) (use_weight_trick : bool) : t :=
  {| _model := clone model_final;
     _use_weight_trick := use_weight_trick;
     _original_featurizer := option_map clone_featurizer featurizer;
     _fit_cate_intercept := if use_weight_trick then false else fit_cate_intercept;
     _featurizer :=
       if use_weight_trick then original_featurizer
       else if fit_cate_intercept
            then match featurizer with
                 | Some _ => pipeline
                 | None => add_intercept_trans
                 end
            else original_featurizer;
     _d_t := None; _d_y := None; _intercept := None |}.

(** [fit_transform] or [transform] of the shared original featurizer. *)
Definition featurize_original (f : Fz) (X : matrix) (fitting : bool) : M t matrix :=
  if fitting
  then self <- get ;;
       put (set_original_featurizer self (fst (fit_transform f X))) ;;;
       ret (snd (fit_transform f X))
  else ret (transform f X).

(** [F] of [_combine] when [X] is present. *)
Definition featurize (X : matrix) (fitting : bool) : M t matrix :=
  self <- get ;;
  match _featurizer self, _original_featurizer self with
  | original_featurizer, None => ret X
  | original_featurizer, Some f => featurize_original f X fitting
  | add_intercept_trans, _ => ret (add_intercept X)
  | pipeline, Some f =>
      F <- featurize_original f X fitting ;;
      ret (add_intercept F)
  | pipeline, None => ret (add_intercept X)
  end.

Definition _combine (X : option matrix) (T : ndarray) (fitting : bool) : M t matrix :=
  match X with
  | Some x =>
      F <- featurize x fitting ;;
      ret (cross_product F T)
  | None =>
      self <- get ;;
      if negb (_fit_cate_intercept self)
      then if _use_weight_trick self
           then raise InfeasibleConfiguration_weight_trick_X_None
           else raise InfeasibleConfiguration_X_None_no_intercept
      else ret (cross_product (ones (nrows T) 1) T)
  end.

(** [sign_T_res * np.clip(np.abs(T_res), 1e-5, np.inf)] *)
Definition clip_residual (t : Q) : Q :=
  sign_zero_to_one (sign t) * clip_below eps (Qabs t).

(** The keyword arguments of the underlying [fit]: [sample_var] is only
    passed along with a [sample_weight]. *)
Definition var_if_weight (sample_weight : option (list Q)) (sample_var : option ndarray)
    : option ndarray :=
  match sample_weight with Some _ => sample_var | None => None end.

(** The arguments of the underlying [fit] in weighting-trick mode, from the
    features [F] and the residuals. *)
Definition weight_trick_call (F : matrix) (T_res Y_res : ndarray)
    (sample_weight : option (list Q)) (sample_var : option ndarray) : fit_call :=
  let T_res := ravel T_res in
  let clipped_T_res := map clip_residual T_res in
  let as_column := (1 <? ndim Y_res)%nat in
  let target := np_div Y_res clipped_T_res as_column in
  let target_var :=
    option_map (fun v => np_div v (map (fun c => c * c) clipped_T_res) as_column)
               sample_var in
  let T2 := map (fun t => t * t) T_res in
  {| design := F;
     target := target;
     sample_weight := Some (match sample_weight with
                            | Some sw => map2 Qmult sw T2
                            | None => T2
                            end);
     sample_var := var_if_weight sample_weight target_var;
     groups := None |}.

Definition fit (X : option matrix) (T_res Y_res : ndarray)
    (sample_weight : option (list Q)) (sample_var : option ndarray) : M t unit :=
  (* Track training dimensions to see if Y or T is a vector *)
  self <- get ;;
  put (set_d_t self (tl (shape T_res))) ;;;
  self <- get ;;
  put (set_d_y self (tl (shape Y_res))) ;;;
  self <- get ;;
  if negb (_use_weight_trick self)
  then
    fts <- _combine X T_res true ;;
    self <- get ;;
    put (set_model self
           (model_fit (_model self)
              {| design := fts; target := Y_res; sample_weight := sample_weight;
                 sample_var := var_if_weight sample_weight sample_var;
                 groups := None |})) ;;;
    self <- get ;;
    put (set_intercept self None) ;;;
    self <- get ;;
    let intercept := model_predict (_model self) (zeros_like (firstn 1 fts)) in
    if (0 <? count_nonzero intercept)%nat
    then warn NonzeroInterceptWarning ;;;
         self <- get ;;
         put (set_intercept self (Some intercept))
    else ret tt
  else if negb (_fit_cate_intercept self)
  then
    if (1 <? ndim T_res)%nat && (1 <? hd O (tl (shape T_res)))%nat
    then raise UnsupportedTreatmentDimension
    else
      F <- _combine X (Vec (ones1 (nrows T_res))) true ;;
      self <- get ;;
      put (set_intercept self None) ;;;
      self <- get ;;
      put (set_model self
             (model_fit (_model self)
                (weight_trick_call F T_res Y_res sample_weight sample_var)))
  else raise InfeasibleConfiguration_combination.

Definition predict (X : option matrix) : M t tensor :=
  self <- get ;;
  match _d_t self with
  | None => raise NotFitted
  | Some d_t =>
      let XT := broadcast_unit_treatments
                  (match X with Some x => x | None => [[]] end)
                  (match d_t with k :: _ => k | [] => 1%nat end) in
      (* This works both with our without the weighting trick as the
         treatments T are unit vector treatments. *)
      D <- _combine (match X with Some _ => Some (fst XT) | None => None end)
                    (Mat (snd XT)) false ;;
      self <- get ;;
      let prediction := model_predict (_model self) D in
      match _intercept self with
      | None => raise NotFitted
      | Some c =>
          let prediction :=
            match c with Some c => isub prediction c | None => prediction end in
          match _d_y self with
          | None => raise NotFitted
          | Some d_y => ret (reshape_treatmentwise_effects prediction d_t d_y)
          end
      end
  end.

End Wrapper.
Arguments t : clear implicits.
End _FinalWrapper.

(** ** The model properties of [DML] *)

(** A first-stage model as the user gives it: the string ['auto'] or an
    estimator. *)
Inductive model_spec (Mdl : Type) :=
| auto
| estimator (m : Mdl).
Arguments auto {Mdl}.
Arguments estimator {Mdl}.

(** [clone(model, safe=False)] on such a value: a string is copied. *)
Definition clone_spec {Mdl} {R : Regressor Mdl} (m : model_spec Mdl) : model_spec Mdl :=
  match m with auto => auto | estimator m => estimator (clone m) end.

(** The estimators built for ['auto'], from the random state. *)
Class AutoModels (Mdl RS : Type) := {
  WeightedLassoCVWrapper : RS -> Mdl;
  LogisticRegressionCV : RS -> Mdl
}.

Module DML.
Section Estimator.
Context {Mdl Fz RS : Type} {R : Regressor Mdl} {Tr : Transformer Fz}
        {A : AutoModels Mdl RS}.

Record t := {
  _random_state : RS;
  _discrete_treatment : bool;
  _linear_first_stages : bool;
  _featurizer : option Fz;
  _model_y : model_spec Mdl;
  _model_t : model_spec Mdl;
  _rlearner_model_y : _FirstStageWrapper.t Mdl Fz;
  _rlearner_model_t : _FirstStageWrapper.t Mdl Fz
}.

Definition set__model_y (self : t) (m : model_spec Mdl) : t :=
  {| _random_state := _random_state self;
     _discrete_treatment := _discrete_treatment self;
     _linear_first_stages := _linear_first_stages self;
     _featurizer := _featurizer self;
     _model_y := m; _model_t := _model_t self;
     _rlearner_model_y := _rlearner_model_y self;
     _rlearner_model_t := _rlearner_model_t self |}.

Definition set__model_t (self : t) (m : model_spec Mdl) : t :=
  {| _random_state := _random_state self;
     _discrete_treatment := _discrete_treatment self;
     _linear_first_stages := _linear_first_stages self;
     _featurizer := _featurizer self;
     _model_y := _model_y self; _model_t := m;
     _rlearner_model_y := _rlearner_model_y self;
     _rlearner_model_t := _rlearner_model_t self |}.

Definition set__rlearner_model_y (self : t) (w : _FirstStageWrapper.t Mdl Fz) : t :=
  {| _random_state := _random_state self;
     _discrete_treatment := _discrete_treatment self;
     _linear_first_stages := _linear_first_stages self;
     _featurizer := _featurizer self;
     _model_y := _model_y self; _model_t := _model_t self;
     _rlearner_model_y := w;
     _rlearner_model_t := _rlearner_model_t self |}.

Definition set__rlearner_model_t (self : t) (w : _FirstStageWrapper.t Mdl Fz) : t :=
  {| _random_state := _random_state self;
     _discrete_treatment := _discrete_treatment self;
     _linear_first_stages := _linear_first_stages self;
     _featurizer := _featurizer self;
     _model_y := _model_y self; _model_t := _model_t self;
     _rlearner_model_y := _rlearner_model_y self;
     _rlearner_model_t := w |}.

Definition _prepare_model_y (model_y : model_spec Mdl) : M t (_FirstStageWrapper.t Mdl Fz) :=
  self <- get ;;
  put (set__model_y self model_y) ;;;
  self <- get ;;
  let model_y :=
    match model_y with
    | auto => WeightedLassoCVWrapper (_random_state self)
    | estimator m => m
    end in
  ret (_FirstStageWrapper.__init__ model_y true (_featurizer self)
         (_linear_first_stages self) (_discrete_treatment self)).

Definition _prepare_model_t (model_t : model_spec Mdl) : M t (_FirstStageWrapper.t Mdl Fz) :=
  self <- get ;;
  put (set__model_t self model_t) ;;;
  self <- get ;;
  let model_t :=
    match model_t with
    | auto =>
        if _discrete_treatment self
        then LogisticRegressionCV (_random_state self)
        else WeightedLassoCVWrapper (_random_state self)
    | estimator m => m
    end in
  ret (_FirstStageWrapper.__init__ model_t false (_featurizer self)
         (_linear_first_stages self) (_discrete_treatment self)).

(** The [model_t] property and its setter. *)
Definition model_t : M t (model_spec Mdl) :=
  self <- get ;; ret (_model_t self).

Definition model_t_setter (model_t : model_spec Mdl) : M t unit :=
  let model_t := clone_spec model_t in
  w <- _prepare_model_y model_t ;;
  self <- get ;;
  put (set__rlearner_model_t self w).

(** The [model_y] property and its setter. *)
Definition model_y : M t (model_spec Mdl) :=
  self <- get ;; ret (_model_y self).

Definition model_y_setter (model_y : model_spec Mdl) : M t unit :=
  let model_y := clone_spec model_y in
  w <- _prepare_model_y model_y ;;
  self <- get ;;
  put (set__rlearner_model_y self w).

End Estimator.
Arguments t : clear implicits.
End DML.

(** ** Concrete estimators, for running the wrappers *)

Definition dot (a b : list Q) : Q := fold_right Qplus 0 (map2 Qmult a b).

(** A fitted linear model: one coefficient row and one intercept per
    outcome, as [coef_] and [intercept_] of scikit-learn's linear models;
    [vector_output] records that the target was a vector. *)
Record linear_model := {
  coef_ : matrix;
  intercept_ : list Q;
  vector_output : bool
}.

Definition predict_row (B : matrix) (b : list Q) (r : list Q) : list Q :=
  map2 (fun c b0 => dot r c + b0) B b.

Definition linear_predict (m : linear_model) (D : matrix) : ndarray :=
  if vector_output m
  then Vec (map (fun r => nth 0 (predict_row (coef_ m) (intercept_ m) r) 0) D)
  else Mat (map (predict_row (coef_ m) (intercept_ m)) D).

Definition sq (x : Q) : Q := x * x.

Definition sum (l : list Q) : Q := fold_right Qplus 0 l.

(** A linear regressor whose [fit] is the solver [solve]; its score is
    minus the sum of squared errors. *)
Definition linear_regressor (solve : fit_call -> linear_model) : Regressor linear_model :=
  {| clone := fun m => {| coef_ := []; intercept_ := [];
                          vector_output := vector_output m |};
     model_fit := fun _ c => solve c;
     model_predict := linear_predict;
     model_predict_proba := fun m D => rows_of (linear_predict m D);
     model_score := fun m =>
       Some (fun D y _ =>
               - sum (map2 (fun p t => sq (p - t))
                           (ravel (linear_predict m D)) (ravel y))) |}.

(** An estimator without a [score] method. *)
Definition scoreless_regressor (solve : fit_call -> linear_model) : Regressor linear_model :=
  {| clone := @clone _ (linear_regressor solve);
     model_fit := @model_fit _ (linear_regressor solve);
     model_predict := linear_predict;
     model_predict_proba := @model_predict_proba _ (linear_regressor solve);
     model_score := fun _ => None |}.

(** A featurizer that leaves the features as they are and counts how many
    times it was fitted. *)
Definition counting_featurizer : Transformer nat :=
  {| clone_featurizer := fun _ => O;
     fit_transform := fun n X => (S n, X);
     transform := fun _ X => X |}.

(** ** The first-stage input block, in the words of the specification *)

(** The plain concatenation of [X] and [W], or a single column of ones
    (one row per sample) when both are absent. *)
Definition plain_block (X W : option matrix) (n_samples : nat) : matrix :=
  match X, W with
  | Some x, Some w => hstack x w
  | Some x, None => x
  | None, Some w => w
  | None, None => ones n_samples 1
  end.

(** cross_product([X,W], [1, F]) for the featurized block [F]. *)
Definition expanded_block (XW F : matrix) : matrix :=
  cross_product XW (Mat (hstack (ones (length XW) 1) F)).

(** Entrywise equality of rationals on blocks. *)
Definition mat_equiv (A B : matrix) : Prop := Forall2 (Forall2 Qeq) A B.

(** ** Pure readings of the final-stage wrapper *)

Section FinalReadings.
Context {Mdl Fz : Type} {R : Regressor Mdl} {Tr : Transformer Fz}.
Import _FinalWrapper.

(** The feature block [F] that [_combine] computes from a present [X]. *)
Definition features (self : _FinalWrapper.t Mdl Fz) (X : matrix) (fitting : bool) : matrix :=
  let apply f := if fitting then snd (fit_transform f X) else transform f X in
  match _featurizer self, _original_featurizer self with
  | original_featurizer, None => X
  | original_featurizer, Some f => apply f
  | add_intercept_trans, _ => add_intercept X
  | pipeline, Some f => add_intercept (apply f)
  | pipeline, None => add_intercept X
  end.

(** The wrapper after [_combine] on a present [X]: fitting replaces the
    state of the original featurizer when it is used. *)
Definition refit (self : _FinalWrapper.t Mdl Fz) (X : matrix) (fitting : bool)
    : _FinalWrapper.t Mdl Fz :=
  match _featurizer self, _original_featurizer self with
  | original_featurizer, Some f
  | pipeline, Some f =>
      if fitting then set_original_featurizer self (fst (fit_transform f X)) else self
  | _, _ => self
  end.

(** The wrapper once [fit] has recorded the training dimensions. *)
Definition with_dims (self : _FinalWrapper.t Mdl Fz) (T_res Y_res : ndarray)
    : _FinalWrapper.t Mdl Fz :=
  set_d_y (set_d_t self (tl (shape T_res))) (tl (shape Y_res)).

(** The arguments of the underlying [fit] in standard mode. *)
Definition standard_call (fts : matrix) (Y_res : ndarray)
    (sample_weight : option (list Q)) (sample_var : option ndarray) : fit_call :=
  {| design := fts; target := Y_res; sample_weight := sample_weight;
     sample_var := var_if_weight sample_weight sample_var; groups := None |}.

(** [(np.ndim(T_res) > 1) and (self._d_t[0] > 1)] *)
Definition multi_column (T_res : ndarray) : bool :=
  (1 <? ndim T_res)%nat && (1 <? hd O (tl (shape T_res)))%nat.

(** The blocks of a call to [fit] agree, so that neither the row check of
    [cross_product] nor numpy's broadcasting can fail: every block that is
    present has one row per sample, the featurizer keeps the rows, the
    variances have the shape of the outcome, and a treatment block has at
    least one column. *)
Definition blocks_agree (self : _FinalWrapper.t Mdl Fz) (X : option matrix)
    (T_res Y_res : ndarray) (sample_weight : option (list Q))
    (sample_var : option ndarray) : Prop :=
  nrows Y_res = nrows T_res
  /\ (forall x, X = Some x ->
        length x = nrows T_res /\ length (features self x true) = length x)
  /\ (forall s, sample_weight = Some s -> length s = nrows T_res)
  /\ (forall v, sample_var = Some v -> shape v = shape Y_res)
  /\ (forall m, T_res = Mat m -> Forall (fun r => (1 <= length r)%nat) m).

(** The design matrix [predict] gives to the model when [X] is present:
    the features of the broadcast rows crossed with the tiled unit
    treatments. *)
Definition cate_design (self : _FinalWrapper.t Mdl Fz) (X : matrix) (k : nat) : matrix :=
  cross_product (features self (fst (broadcast_unit_treatments X k)) false)
                (Mat (snd (broadcast_unit_treatments X k))).

(** The design matrix of [predict] when [X] is absent. *)
Definition cate_design_absent (k : nat) : matrix :=
  cross_product (ones (length (snd (broadcast_unit_treatments [[]] k))) 1)
                (Mat (snd (broadcast_unit_treatments [[]] k))).

End FinalReadings.

(** [prediction -= self._intercept] when an intercept was recorded. *)
Definition subtract_intercept (c : option ndarray) (prediction : ndarray) : ndarray :=
  match c with Some c => isub prediction c | None => prediction end.

(** One entry of the prediction after that subtraction. *)
Definition corrected (c : option ndarray) (y : nat) (p : Q) : Q :=
  match c with Some c => p - nth y (ravel c) 0 | None => p end.

(** [k] of [predict]: [self._d_t[0] if self._d_t else 1]. *)
Definition unit_treatments (d_t : list nat) : nat :=
  match d_t with k :: _ => k | [] => 1%nat end.

(** The number of columns of the flat prediction: [d_y[0]] for an outcome
    block, one for an outcome vector. *)
Definition outcomes (d_y : list nat) : nat :=
  match d_y with m :: _ => m | [] => 1%nat end.

(** A tensor has the shape [s], every row along every axis having the
    announced length. *)
Definition has_shape (R : tensor) (s : list nat) : Prop :=
  match R, s with
  | T1 v, [n] => length v = n
  | T2 r, [n; a] => length r = n /\ Forall (fun row => length row = a) r
  | T3 r, [n; a; b] =>
      length r = n
      /\ Forall (fun M => length M = a /\ Forall (fun row => length row = b) M) r
  | _, _ => False
  end.

(** Entry [i, y, t] of the effect tensor.  An axis that is absent (the
    residual was a vector) has no index: with two axes the second one is
    the treatment when [d_t] is not empty and the outcome otherwise. *)
Definition effect (R : tensor) (d_t : list nat) (i y t : nat) : Q :=
  match R with
  | T3 r => nth t (nth y (nth i r []) []) 0
  | T2 r => match d_t with
            | [] => nth y (nth i r []) 0
            | _ :: _ => nth t (nth i r []) 0
            end
  | T1 v => nth i v 0
  end.

(** [self._intercept] once [fit] has assigned it. *)
Definition intercept_of {Mdl Fz : Type} (self : _FinalWrapper.t Mdl Fz)
    : option ndarray :=
  match _FinalWrapper._intercept self with Some c => c | None => None end.

(** The state and the value an outcome carries. *)
Definition state_of {S A : Type} (o : outcome S A) : S :=
  match o with Ok _ s _ => s | Raise _ s _ => s end.

Definition value_of {S A : Type} (o : outcome S A) : option A :=
  match o with Ok a _ _ => Some a | Raise _ _ _ => None end.

(** ** Least squares *)

(** The weight of each row in a call: 1 when no [sample_weight] is passed. *)
Definition weights_of (c : fit_call) : list Q :=
  match sample_weight c with
  | Some w => w
  | None => repeat 1 (length (design c))
  end.

(** The squared error of one sample, summed over the outcomes. *)
Definition row_sqerr (y p : list Q) : Q :=
  sum (map2 (fun yk pk => sq (yk - pk)) y p).

(** The weighted squared loss, on the data of a call, of a predictor [f]
    from a design row to one value per outcome:
    sum_i w_i sum_k (target_ik - f(design_i)_k)^2. *)
Definition weighted_loss (c : fit_call) (f : list Q -> list Q) : Q :=
  sum (map2 Qmult (weights_of c)
         (map2 (fun r y => row_sqerr y (f r)) (design c) (rows_of (target c)))).

(** The linear predictor without intercept of coefficients [B], one row of
    coefficients per outcome. *)
Definition linear (B : matrix) (r : list Q) : list Q := map (dot r) B.

(** [B] has one row per outcome and one coefficient per design column. *)
Definition coef_shape (c : fit_call) (B : matrix) : Prop :=
  length B = ncols (rows_of (target c))
  /\ Forall (fun b => length b = ncols (design c)) B.

(** [B] is an ordinary least-squares solution of the call: it minimises the
    weighted squared loss among the coefficients of that shape. *)
Definition ols_solution (c : fit_call) (B : matrix) : Prop :=
  coef_shape c B
  /\ forall B', coef_shape c B' ->
       weighted_loss c (linear B) <= weighted_loss c (linear B').

(** The residual-on-residual loss in the words of the specification:
    sum_i w_i sum_k (Y_ik - f(F_i)_k * T_i)^2. *)
Definition residual_row (t : Q) (y p : list Q) : Q :=
  sum (map2 (fun yk pk => sq (yk - pk * t)) y p).

Definition residual_loss (F : matrix) (T : list Q) (Y : matrix) (w : list Q)
    (f : list Q -> list Q) : Q :=
  sum (map2 Qmult w
         (map2 (fun rt y => residual_row (snd rt) y (f (fst rt))) (combine F T) Y)).

(** A least-squares solver whose answer is determined by the objective:
    two calls with designs and targets of the same widths and the same loss
    at every coefficient matrix of that shape get the same coefficients. *)
Definition respects_loss (lstsq : fit_call -> matrix) : Prop :=
  forall c c',
    ncols (design c) = ncols (design c') ->
    ncols (rows_of (target c)) = ncols (rows_of (target c')) ->
    (forall B, coef_shape c B ->
               weighted_loss c (linear B) == weighted_loss c' (linear B)) ->
    lstsq c = lstsq c'.

(** Ordinary least squares without intercept (scikit-learn's
    [LinearRegression(fit_intercept=False)]) on top of the solver. *)
Definition ols_regressor (lstsq : fit_call -> matrix) : Regressor linear_model :=
  linear_regressor
    (fun c => {| coef_ := lstsq c;
                 intercept_ := map (fun _ => 0) (lstsq c);
                 vector_output := Nat.eqb (ndim (target c)) 1 |}).

(** The treatment residual has a single dimension: a vector, or a matrix
    of one column. *)
Definition single_dimensional (T : ndarray) : Prop :=
  match T with
  | Vec _ => True
  | Mat m => Forall (fun r => length r = 1%nat) m
  end.

(** ** Data for worked runs *)

Definition constant_fit (m : linear_model) : fit_call -> linear_model := fun _ => m.

Definition unfitted : linear_model :=
  {| coef_ := []; intercept_ := []; vector_output := false |}.

(** [y = 2 x] and [y = x + 3], one outcome. *)
Definition slope2 : linear_model :=
  {| coef_ := [[2]]; intercept_ := [0]; vector_output := false |}.
Definition slope1_plus3 : linear_model :=
  {| coef_ := [[1]]; intercept_ := [3]; vector_output := false |}.

Definition ols2 : Regressor linear_model := linear_regressor (constant_fit slope2).
Definition affine3 : Regressor linear_model :=
  linear_regressor (constant_fit slope1_plus3).

(** A classifier wrapper for a discrete treatment, and final wrappers in
    standard and in weighting-trick mode, without featurizer. *)
Definition treatment_classifier : _FirstStageWrapper.t linear_model nat :=
  _FirstStageWrapper.__init__ (R := ols2) (Tr := counting_featurizer)
    unfitted false None false true.
Definition standard_wrapper (fit_cate_intercept : bool) : _FinalWrapper.t linear_model nat :=
  _FinalWrapper.__init__ (R := ols2) (Tr := counting_featurizer)
    unfitted fit_cate_intercept None false.
Definition trick_wrapper (fit_cate_intercept : bool) : _FinalWrapper.t linear_model nat :=
  _FinalWrapper.__init__ (R := ols2) (Tr := counting_featurizer)
    unfitted fit_cate_intercept None true.

(** Three folds of a treatment with three categories, the first one being
    the baseline without a column. *)
Definition fold_all_categories : matrix := [[0; 0]; [1; 0]; [0; 1]].
Definition fold_without_baseline : matrix := [[1; 0]; [0; 1]].
Definition fold_two_categories : matrix := [[0]; [1]].

(** Two samples with one feature and [Y = 2 X T], as vectors and as
    one-column matrices. *)
Definition ex_X : matrix := [[1]; [3]].
Definition ex_T : ndarray := Vec [2; 1 # 2].
Definition ex_Y : ndarray := Vec [4; 3].
Definition ex_T_mat : ndarray := Mat [[2]; [1]].
Definition ex_Y_mat : ndarray := Mat [[4]; [6]].

(** The standard wrapper without intercept after a fit on these samples. *)
Definition fitted_standard : _FinalWrapper.t linear_model nat :=
  state_of (_FinalWrapper.fit (R := ols2) (Tr := counting_featurizer)
              (Some ex_X) ex_T_mat ex_Y_mat None None (standard_wrapper false)).

(** The same residuals for data without [X], fitted with the intercept. *)
Definition fitted_absent : _FinalWrapper.t linear_model nat :=
  state_of (_FinalWrapper.fit (R := ols2) (Tr := counting_featurizer)
              None ex_T_mat ex_Y_mat None None (standard_wrapper true)).

(** A [DML] estimator with continuous treatment and ['auto'] first stages,
    the ['auto'] models being unfitted linear models. *)
Definition auto_unfitted : AutoModels linear_model unit :=
  {| WeightedLassoCVWrapper := fun _ => unfitted;
     LogisticRegressionCV := fun _ => unfitted |}.

Definition ex_dml : DML.t linear_model nat unit :=
  {| DML._random_state := tt;
     DML._discrete_treatment := false;
     DML._linear_first_stages := false;
     DML._featurizer := None;
     DML._model_y := auto;
     DML._model_t := auto;
     DML._rlearner_model_y :=
       _FirstStageWrapper.__init__ (R := ols2) (Tr := counting_featurizer)
         unfitted true None false false;
     DML._rlearner_model_t :=
       _FirstStageWrapper.__init__ (R := ols2) (Tr := counting_featurizer)
         unfitted false None false false |}.

(** ** The final-stage attributes of [DML] *)

Module DMLFinalStage.
Section Estimator.
Context {Mdl Fz RS : Type} {R : Regressor Mdl} {Tr : Transformer Fz}
        {A : AutoModels Mdl RS}.

(** The attributes of a [DML] instance that its final stage adds to the
    first-stage ones: the intercept flag, the final model as the user gave
    it and the wrapper built from it. *)
Record t := {
  first_stage : DML.t Mdl Fz RS;
  _fit_cate_intercept : bool;
  _model_final : Mdl;
  _rlearner_model_final : _FinalWrapper.t Mdl Fz
}.

Definition set__fit_cate_intercept (self : t) (b : bool) : t :=
  {| first_stage := first_stage self; _fit_cate_intercept := b;
     _model_final := _model_final self;
     _rlearner_model_final := _rlearner_model_final self |}.

Definition set__model_final (self : t) (m : Mdl) : t :=
  {| first_stage := first_stage self;
     _fit_cate_intercept := _fit_cate_intercept self;
     _model_final := m;
     _rlearner_model_final := _rlearner_model_final self |}.

Definition set__rlearner_model_final (self : t) (w : _FinalWrapper.t Mdl Fz) : t :=
  {| first_stage := first_stage self;
     _fit_cate_intercept := _fit_cate_intercept self;
     _model_final := _model_final self;
     _rlearner_model_final := w |}.

(** The [model_final] property of [_BaseDML] and the [fit_cate_intercept]
    property of [DML]. *)
Definition model_final : M t Mdl :=
  self <- get ;; ret (_model_final self).

Definition fit_cate_intercept : M t bool :=
  self <- get ;; ret (_fit_cate_intercept self).

Definition _prepare_final_model (model : Mdl) : M t (_FinalWrapper.t Mdl Fz) :=
  self <- get ;;
  put (set__model_final self model) ;;;
  model_final_ <- model_final ;;
  fit_cate_intercept_ <- fit_cate_intercept ;;
  self <- get ;;
  ret (_FinalWrapper.__init__ model_final_ fit_cate_intercept_
         (DML._featurizer (first_stage self)) false).

Definition fit_cate_intercept_setter (fit_cate_intercept : bool) : M t unit :=
  self <- get ;;
  put (set__fit_cate_intercept self fit_cate_intercept) ;;;
  (* only the final model needs to change *)
  self <- get ;;
  w <- _prepare_final_model (_model_final self) ;;
  self <- get ;;
  put (set__rlearner_model_final self w).

End Estimator.
Arguments t : clear implicits.
End DMLFinalStage.

(** ** The first-stage model properties of [NonParamDML] *)

Module NonParamDML.
Section Estimator.
Context {Mdl Fz : Type} {R : Regressor Mdl} {Tr : Transformer Fz}.

Record t := {
  _model_y : Mdl;
  _model_t : Mdl;
  _featurizer : option Fz;
  _rlearner_model_y : _FirstStageWrapper.t Mdl Fz;
  _rlearner_model_t : _FirstStageWrapper.t Mdl Fz
}.

(** The properties [featurizer] and [discrete_treatment] read what the
    parent classes [_RLearner] and [_OrthoLearner] keep; those classes are
    in other files, so the two readings are parameters. *)
Variable featurizer : t -> option Fz.
Variable discrete_treatment : t -> bool.

Definition set__model_y (self : t) (m : Mdl) : t :=
  {| _model_y := m; _model_t := _model_t self; _featurizer := _featurizer self;
     _rlearner_model_y := _rlearner_model_y self;
     _rlearner_model_t := _rlearner_model_t self |}.

Definition set__model_t (self : t) (m : Mdl) : t :=
  {| _model_y := _model_y self; _model_t := m; _featurizer := _featurizer self;
     _rlearner_model_y := _rlearner_model_y self;
     _rlearner_model_t := _rlearner_model_t self |}.

Definition set__rlearner_model_y (self : t) (w : _FirstStageWrapper.t Mdl Fz) : t :=
  {| _model_y := _model_y self; _model_t := _model_t self;
     _featurizer := _featurizer self;
     _rlearner_model_y := w;
     _rlearner_model_t := _rlearner_model_t self |}.

Definition set__rlearner_model_t (self : t) (w : _FirstStageWrapper.t Mdl Fz) : t :=
  {| _model_y := _model_y self; _model_t := _model_t self;
     _featurizer := _featurizer self;
     _rlearner_model_y := _rlearner_model_y self;
     _rlearner_model_t := w |}.

(** The first-stage wrappers that [__init__] hands to the parent class. *)
Definition init_model_y (model_y : Mdl) (featurizer : option Fz)
    (discrete_treatment : bool) : _FirstStageWrapper.t Mdl Fz :=
  _FirstStageWrapper.__init__ (clone model_y) true featurizer false discrete_treatment.

Definition init_model_t (model_t : Mdl) (featurizer : option Fz)
    (discrete_treatment : bool) : _FirstStageWrapper.t Mdl Fz :=
  _FirstStageWrapper.__init__ (clone model_t) false featurizer false discrete_treatment.

Definition model_t : M t Mdl :=
  self <- get ;; ret (_model_t self).

Definition model_t_setter (model_t : Mdl) : M t unit :=
  let model_t := clone model_t in
  self <- get ;;
  put (set__model_t self model_t) ;;;
  self <- get ;;
  put (set__rlearner_model_t self
         (_FirstStageWrapper.__init__ model_t false (featurizer self) false
            (discrete_treatment self))).

Definition model_y : M t Mdl :=
  self <- get ;; ret (_model_y self).

Definition model_y_setter (model_y : Mdl) : M t unit :=
  let model_y := clone model_y in
  self <- get ;;
  put (set__model_y self model_y) ;;;
  self <- get ;;
  put (set__rlearner_model_y self
         (_FirstStageWrapper.__init__ model_y false (featurizer self) false
            (discrete_treatment self))).

End Estimator.
Arguments t : clear implicits.
End NonParamDML.

(** ** [econml/panel/utilities.py] *)

Module panel.

(** A reshaped array, or the exception of the call: [IndexError] when
    [x.shape[1]] does not exist, [ValueError] when numpy cannot infer the
    axis given as [-1] because the other axes have size zero. *)
Inductive result :=
| Reshaped (x : tensor)
| IndexError
| ValueError.

(** [x.shape[0]] *)
Definition shape0 (x : tensor) : nat :=
  match x with T1 v => length v | T2 m => length m | T3 t => length t end.

(** [x.shape[1]] of an array of three axes *)
Definition shape1 (t : list matrix) : nat :=
  match t with [] => O | b :: _ => length b end.

(** The entries of an array, in row-major order. *)
Definition entries (x : tensor) : list Q :=
  match x with
  | T1 v => v
  | T2 m => concat m
  | T3 t => concat (map (@concat Q) t)
  end.

(** Arrays are rectangular: a reshape keeps the entries in row-major order
    and regroups them. *)
Definition long (x : tensor) : result :=
  match x with
  | T1 _ => IndexError
  | T2 m => Reshaped (T1 (concat m))
  | T3 t =>
      if (shape0 x * shape1 t =? 0)%nat then ValueError
      else Reshaped (T2 (concat t))
  end.

Definition wide (x : tensor) : result :=
  if (shape0 x =? 0)%nat then ValueError
  else match x with
       | T1 v => Reshaped (T2 (map (fun y => [y]) v))
       | T2 m => Reshaped (T2 m)
       | T3 t => Reshaped (T2 (map (@concat Q) t))
       end.

End panel.

(** * Properties *)

Ltac run := unfold bind, get, put, ret, raise, warn; simpl.

(** ** numpy helpers *)

Lemma is_zero_iff (x : Q) : is_zero x = true <-> x == 0.
Proof. unfold is_zero. apply Qeq_bool_iff. Qed.

Lemma any_all_zero_axis0_iff (m : matrix) :
  any_all_zero_axis0 m = true <->
  exists j, (j < ncols m)%nat /\ forall r, In r m -> nth j r 0 == 0.
Proof.
  unfold any_all_zero_axis0. rewrite existsb_exists. split.
  - intros (j & Hj & Hall). exists j. rewrite in_seq in Hj. split; [lia|].
    rewrite forallb_forall in Hall. intros r Hr.
    apply is_zero_iff. now apply Hall.
  - intros (j & Hj & Hall). exists j. split; [apply in_seq; lia|].
    apply forallb_forall. intros r Hr. apply is_zero_iff. now apply Hall.
Qed.

Lemma any_all_zero_axis1_iff (m : matrix) :
  any_all_zero_axis1 m = true <->
  exists r, In r m /\ forall x, In x r -> x == 0.
Proof.
  unfold any_all_zero_axis1. rewrite existsb_exists. split.
  - intros (r & Hr & Hall). exists r. split; [assumption|].
    rewrite forallb_forall in Hall. intros x Hx. apply is_zero_iff. now apply Hall.
  - intros (r & Hr & Hall). exists r. split; [assumption|].
    apply forallb_forall. intros x Hx. apply is_zero_iff. now apply Hall.
Qed.

(** ** Sums of rationals *)

Lemma sum_pointwise (l l' : list Q) :
  length l = length l' ->
  (forall i, (i < length l)%nat -> nth i l 0 == nth i l' 0) ->
  sum l == sum l'.
Proof.
  revert l'. induction l as [|x l IH]; intros [|x' l'] Hlen Hnth;
    simpl in *; try discriminate; [reflexivity|].
  rewrite (Hnth 0%nat) by lia. simpl.
  rewrite (IH l'); [reflexivity | lia |].
  intros i Hi. apply (Hnth (S i)). lia.
Qed.

Lemma sum_nonneg (l : list Q) : Forall (fun x => 0 <= x) l -> 0 <= sum l.
Proof.
  induction 1 as [|x l Hx _ IH]; simpl; [apply Qle_refl|].
  replace 0 with (0 + 0) by reflexivity. now apply Qplus_le_compat.
Qed.

Lemma Forall_map2 {A B C : Type} (P : C -> Prop) (f : A -> B -> C)
    (l : list A) (l' : list B) :
  (forall a b, In a l -> In b l' -> P (f a b)) -> Forall P (map2 f l l').
Proof.
  revert l'. induction l as [|a l IH]; intros [|b l'] Hf; simpl; constructor.
  - apply Hf; now left.
  - apply IH. intros a' b' Ha Hb. apply Hf; now right.
Qed.

(** ** The clipped residual *)

Lemma clip_residual_id (t : Q) :
  eps <= Qabs t -> _FinalWrapper.clip_residual t == t.
Proof.
  intros Ht. unfold _FinalWrapper.clip_residual, clip_below.
  apply Qle_bool_iff in Ht as Hb. rewrite Hb. unfold sign.
  assert (Heps : 0 < eps) by reflexivity.
  destruct (Qle_bool 0 t) eqn:H0.
  - apply Qle_bool_iff in H0. rewrite (Qabs_pos t H0) in *.
    destruct (Qle_bool t 0) eqn:H1.
    + apply Qle_bool_iff in H1. lra.
    + unfold sign_zero_to_one. simpl. ring.
  - assert (Hneg : t <= 0).
    { destruct (Qlt_le_dec 0 t) as [Hp|Hn]; [|exact Hn].
      apply Qlt_le_weak, Qle_bool_iff in Hp. congruence. }
    rewrite (Qabs_neg t Hneg). unfold sign_zero_to_one. simpl. ring.
Qed.

Lemma residual_nonzero (t : Q) : eps <= Qabs t -> ~ t == 0.
Proof.
  intros Ht E. rewrite E in Ht. assert (Heps : 0 < eps) by reflexivity.
  change (Qabs 0) with 0 in Ht. lra.
Qed.

(** ** Lists of consecutive blocks *)

Lemma length_map2 {A B C : Type} (f : A -> B -> C) (l : list A) (l' : list B) :
  length (map2 f l l') = Nat.min (length l) (length l').
Proof.
  revert l'. induction l as [|a l IH]; intros [|b l']; simpl; auto.
Qed.

Lemma nth_map2 {A B C : Type} (f : A -> B -> C) (l : list A) (l' : list B)
    (i : nat) (da : A) (db : B) (dc : C) :
  (i < length l)%nat -> (i < length l')%nat ->
  nth i (map2 f l l') dc = f (nth i l da) (nth i l' db).
Proof.
  revert l' i. induction l as [|a l IH]; intros [|b l'] [|i]; simpl; intros;
    try lia; [reflexivity | apply IH; lia].
Qed.

Lemma nth_map_seq {A : Type} (f : nat -> A) (n i : nat) (d : A) :
  (i < n)%nat -> nth i (map f (seq 0 n)) d = f i.
Proof.
  intros Hi. rewrite (nth_indep _ d (f 0%nat)) by (rewrite length_map, length_seq; lia).
  rewrite map_nth, seq_nth by lia. reflexivity.
Qed.

Lemma nth_map_lt {A B : Type} (f : A -> B) (l : list A) (i : nat) (d : A) (d' : B) :
  (i < length l)%nat -> nth i (map f l) d' = f (nth i l d).
Proof.
  intros Hi. rewrite (nth_indep _ d' (f d)) by (now rewrite length_map).
  apply map_nth.
Qed.

Lemma length_flat_map_blocks {A B : Type} (g : A -> list B) (k : nat) (l : list A) :
  (forall x, length (g x) = k) -> length (flat_map g l) = (length l * k)%nat.
Proof.
  intros Hg. induction l as [|a l IH]; simpl; [reflexivity|].
  rewrite length_app, Hg, IH. reflexivity.
Qed.

Lemma nth_flat_map_blocks {A B : Type} (g : A -> list B) (k : nat) (l : list A)
    (i t : nat) (da : A) (db : B) :
  (forall x, length (g x) = k) -> (i < length l)%nat -> (t < k)%nat ->
  nth (i * k + t) (flat_map g l) db = nth t (g (nth i l da)) db.
Proof.
  intros Hg. revert i. induction l as [|a l IH]; intros i Hi Ht; simpl in *; [lia|].
  destruct i as [|i]; simpl.
  - rewrite app_nth1 by (rewrite Hg; lia). reflexivity.
  - rewrite app_nth2 by (rewrite Hg; lia). rewrite Hg.
    replace (k + i * k + t - k)%nat with (i * k + t)%nat by lia.
    apply IH; lia.
Qed.

Lemma map2_repeat_map {A B C D : Type} (f : A -> B -> C) (a : A) (g : D -> B)
    (l : list D) :
  map2 f (repeat a (length l)) (map g l) = map (fun t => f a (g t)) l.
Proof. induction l as [|d l IH]; simpl; [reflexivity | now rewrite IH]. Qed.

Lemma length_eye (d : nat) : length (eye d) = d.
Proof. unfold eye. now rewrite length_map, length_seq. Qed.

Lemma nth_eye (d t : nat) : (t < d)%nat -> nth t (eye d) [] = unit_vector d t.
Proof. intros Ht. unfold eye. now apply nth_map_seq. Qed.

(** Row [i * k + t] of the broadcast is row [i] of [X] next to the [t]-th
    unit treatment. *)
Lemma broadcast_unit_treatments_rows (X : matrix) (k i t : nat) :
  (i < length X)%nat -> (t < k)%nat ->
  nth (i * k + t) (fst (broadcast_unit_treatments X k)) [] = nth i X []
  /\ nth (i * k + t) (snd (broadcast_unit_treatments X k)) [] = unit_vector k t.
Proof.
  intros Hi Ht. unfold broadcast_unit_treatments. simpl. split.
  - rewrite (nth_flat_map_blocks (fun x => repeat x k) k X i t [] [])
      by (auto using repeat_length).
    apply nth_repeat_lt. exact Ht.
  - rewrite (nth_flat_map_blocks (fun _ => eye k) k X i t [] [])
      by (auto using length_eye).
    now apply nth_eye.
Qed.

Lemma broadcast_unit_treatments_length (X : matrix) (k : nat) :
  length (fst (broadcast_unit_treatments X k)) = (length X * k)%nat
  /\ length (snd (broadcast_unit_treatments X k)) = (length X * k)%nat.
Proof.
  unfold broadcast_unit_treatments. simpl. split.
  - apply length_flat_map_blocks. intros x. apply repeat_length.
  - apply length_flat_map_blocks. intros x. apply length_eye.
Qed.

(** ** [_FirstStageWrapper] *)

Section FirstStage.
Context {Mdl Fz : Type} {R : Regressor Mdl} {Tr : Transformer Fz}.
Import _FirstStageWrapper.

Local Notation "'wrapper'" := (_FirstStageWrapper.t Mdl Fz).

Lemma fit_treatment_discrete (w : wrapper) X W m sw g :
  _is_Y w = false -> _discrete_treatment w = true ->
  fit X W (Mat m) sw g w =
    if any_all_zero_axis0 m || negb (any_all_zero_axis1 m)
    then Raise InvalidFoldSplit w []
    else match _combine X W (length m) true w with
         | Ok D w' log =>
             Ok tt (set_model w' (fit_with_groups (_model w') D (labels_of m) g sw)) log
         | Raise e w' log => Raise e w' log
         end.
Proof.
  intros HY HD. unfold fit. run. rewrite HY, HD. simpl.
  unfold labels_checked.
  destruct (any_all_zero_axis0 m || negb (any_all_zero_axis1 m)); run; [reflexivity|].
  rewrite length_map.
  destruct (_combine X W (length m) true w) as [D w' log|e w' log]; [|reflexivity].
  now rewrite !app_nil_r.
Qed.

Lemma fit_no_conversion (w : wrapper) X W Target sw g :
  negb (_is_Y w) && _discrete_treatment w = false ->
  fit X W Target sw g w =
    match _combine X W (nrows Target) true w with
    | Ok D w' log =>
        Ok tt (set_model w' (fit_with_groups (_model w') D Target g sw)) log
    | Raise e w' log => Raise e w' log
    end.
Proof.
  intros Hn. unfold fit. run. rewrite Hn. run.
  destruct (_combine X W (nrows Target) true w) as [D w' log|e w' log]; [|reflexivity].
  now rewrite !app_nil_r.
Qed.

Lemma predict_unfold (w : wrapper) X W :
  predict X W w =
    match _combine X W
            (match X with
             | Some x => length x
             | None => match W with Some w0 => length w0 | None => 1%nat end
             end) false w with
    | Ok D w' log =>
        Ok (if negb (_is_Y w') && _discrete_treatment w'
            then Mat (map (skipn 1) (model_predict_proba (_model w') D))
            else model_predict (_model w') D) w' log
    | Raise e w' log => Raise e w' log
    end.
Proof.
  unfold predict. run.
  destruct (_combine X W _ false w) as [D w' log|e w' log]; [|reflexivity].
  destruct (negb (_is_Y w') && _discrete_treatment w'); now rewrite !app_nil_r.
Qed.

Lemma score_unfold (w : wrapper) X W Target sw :
  score X W Target sw w =
    match model_score (_model w) with
    | None => Ok None w []
    | Some sc =>
        match (if negb (_is_Y w) && _discrete_treatment w
               then inverse_onehot Target else Some Target) with
        | None => Raise ShapeError w []
        | Some T' =>
            match _combine X W (nrows T') true w with
            | Ok D w' log => Ok (Some (sc D T' sw)) w' log
            | Raise e w' log => Raise e w' log
            end
        end
    end.
Proof.
  unfold score. run.
  destruct (model_score (_model w)) as [sc|]; [|reflexivity].
  destruct (negb (_is_Y w) && _discrete_treatment w).
  - destruct (inverse_onehot Target) as [T'|]; run; [|reflexivity].
    destruct (_combine X W (nrows T') true w); [|reflexivity].
    now rewrite !app_nil_r.
  - run. destruct (_combine X W (nrows Target) true w); [|reflexivity].
    now rewrite !app_nil_r.
Qed.

(** When the linear-first-stage expansion does not apply, [_combine]
    returns the plain block without touching the wrapper. *)
Lemma combine_plain (w : wrapper) X W n fitting :
  _is_Y w && _linear_first_stages w = false \/ X = None ->
  _combine X W n fitting w =
    Ok (match X, W with
        | Some x, Some w0 => hstack x w0
        | Some x, None => x
        | None, Some w0 => w0
        | None, None => ones n 1
        end) w [].
Proof.
  intros Hc. unfold _combine. destruct X as [x|]; run.
  - destruct Hc as [Hc|Hc]; [|discriminate]. rewrite Hc. now destruct W.
  - now destruct W.
Qed.

(** Outcome model with linear first stages, [X] present: [_combine]
    featurizes [X] and returns the expanded block. *)
Lemma combine_expanded (w : wrapper) x W n fitting :
  _is_Y w && _linear_first_stages w = true ->
  _combine (Some x) W n fitting w =
    match _featurizer w with
    | None => Ok (expanded_block (plain_block (Some x) W n) x) w []
    | Some f =>
        if fitting
        then Ok (expanded_block (plain_block (Some x) W n) (snd (fit_transform f x)))
                (set_featurizer w (fst (fit_transform f x))) []
        else Ok (expanded_block (plain_block (Some x) W n) (transform f x)) w []
    end.
Proof.
  intros Hc. unfold _combine, featurize. run. rewrite Hc. run.
  destruct (_featurizer w) as [f|]; run; [destruct fitting; run|]; now destruct W.
Qed.

(** The first-stage [_combine] never raises. *)
Lemma combine_total (w : wrapper) X W n fitting :
  exists D w' l, _combine X W n fitting w = Ok D w' l.
Proof.
  destruct (_is_Y w && _linear_first_stages w) eqn:Hc.
  - destruct X as [x|].
    + rewrite (combine_expanded w x W n fitting Hc).
      destruct (_featurizer w); [destruct fitting|]; eauto.
    + rewrite combine_plain by now right. eauto.
  - rewrite combine_plain by now left. eauto.
Qed.

Lemma cross_row_one (a : list Q) : Forall2 Qeq a (cross_row a [1]).
Proof.
  unfold cross_row. simpl. rewrite app_nil_r.
  induction a as [|x a IH]; simpl; constructor; [ring | exact IH].
Qed.

Lemma cross_product_ones (A : matrix) :
  mat_equiv A (cross_product A (Mat (ones (length A) 1))).
Proof.
  unfold mat_equiv, cross_product, ones. simpl.
  induction A as [|a A IH]; simpl; constructor; [apply cross_row_one | exact IH].
Qed.

(** C2 (amended): for a discrete treatment model, [fit] on a one-hot block
    raises InvalidFoldSplit exactly when some column is zero in every
    training row or no row is zero in every column (the baseline category,
    which has no column, never occurs); when every column is set in some
    row and some row has no column set, the block is converted to labels
    and the classifier is fitted on them. *)
Theorem fit_InvalidFoldSplit_iff (w : wrapper) X W m sw g :
  _is_Y w = false -> _discrete_treatment w = true ->
  let column_never_set :=
    exists j, (j < ncols m)%nat /\ forall r, In r m -> nth j r 0 == 0 in
  let baseline_row :=
    exists r, In r m /\ forall x, In x r -> x == 0 in
  (column_never_set \/ ~ baseline_row <->
   fit X W (Mat m) sw g w = Raise InvalidFoldSplit w [])
  /\ (~ column_never_set /\ baseline_row <->
      fit X W (Mat m) sw g w =
        Ok tt (set_model w (fit_with_groups (_model w) (plain_block X W (length m))
                              (labels_of m) g sw)) []).
Proof.
  intros HY HD cns br.
  pose proof (fit_treatment_discrete w X W m sw g HY HD) as Hfit.
  rewrite (combine_plain w X W (length m) true) in Hfit
    by (left; rewrite HY; reflexivity).
  fold (plain_block X W (length m)) in Hfit.
  pose proof (any_all_zero_axis0_iff m) as H0.
  pose proof (any_all_zero_axis1_iff m) as H1.
  fold cns in H0. fold br in H1.
  assert (Hraise : cns \/ ~ br <->
                   any_all_zero_axis0 m || negb (any_all_zero_axis1 m) = true).
  { rewrite orb_true_iff, negb_true_iff, H0, <- not_true_iff_false, H1. tauto. }
  assert (Hok : ~ cns /\ br <->
                any_all_zero_axis0 m || negb (any_all_zero_axis1 m) = false).
  { rewrite orb_false_iff, negb_false_iff, <- not_true_iff_false, H0, H1. tauto. }
  rewrite Hfit, Hraise, Hok.
  destruct (any_all_zero_axis0 m || negb (any_all_zero_axis1 m));
    split; split; intros; (reflexivity || discriminate).
Qed.

(** C4: the block given to the underlying model by [fit] and by [predict].
    Outcome model with linear first stages: cross_product([X,W],
    [1, featurizer(X)]), the featurizer being fitted by [fit] and only
    applied by [predict].  Every other configuration: the plain
    concatenation of [X] and [W], or a column of ones, one row per sample,
    when both are absent.  With [X] absent there is nothing to featurize and
    the block is the plain one, which is the cross product of itself with
    the lone intercept column. *)
Theorem first_stage_input_block (w : wrapper) (X W : option matrix) :
  (forall x Target sw g,
     X = Some x -> _is_Y w && _linear_first_stages w = true ->
     let F := match _featurizer w with
              | Some f => snd (fit_transform f x)
              | None => x
              end in
     let w1 := match _featurizer w with
               | Some f => set_featurizer w (fst (fit_transform f x))
               | None => w
               end in
     fit X W Target sw g w =
       Ok tt (set_model w1
                (fit_with_groups (_model w)
                   (expanded_block (plain_block X W (nrows Target)) F) Target g sw)) [])
  /\ (forall x,
        X = Some x -> _is_Y w && _linear_first_stages w = true ->
        let F := match _featurizer w with
                 | Some f => transform f x
                 | None => x
                 end in
        predict X W w =
          Ok (model_predict (_model w)
                (expanded_block (plain_block X W (length x)) F)) w [])
  /\ (forall Target sw g,
        _is_Y w && _linear_first_stages w = false \/ X = None ->
        fit X W Target sw g w =
          match (if negb (_is_Y w) && _discrete_treatment w
                 then labels_checked Target else ret Target) w with
          | Ok T' _ _ =>
              Ok tt (set_model w
                       (fit_with_groups (_model w)
                          (plain_block X W (nrows T')) T' g sw)) []
          | Raise e s log => Raise e s log
          end)
  /\ (_is_Y w && _linear_first_stages w = false \/ X = None ->
      let n := match X with
               | Some x => length x
               | None => match W with Some w0 => length w0 | None => 1%nat end
               end in
      predict X W w =
        Ok (if negb (_is_Y w) && _discrete_treatment w
            then Mat (map (skipn 1)
                        (model_predict_proba (_model w) (plain_block X W n)))
            else model_predict (_model w) (plain_block X W n)) w [])
  /\ (forall n,
        mat_equiv (plain_block None W n)
          (expanded_block (plain_block None W n)
             (repeat [] (length (plain_block None W n))))).
Proof.
  refine (conj _ (conj _ (conj _ (conj _ _)))).
  - intros x Target sw g HX Hc F w1.
    assert (HY : _is_Y w = true) by (destruct (_is_Y w); [reflexivity|discriminate]).
    rewrite fit_no_conversion by (rewrite HY; reflexivity).
    rewrite HX at 1. rewrite (combine_expanded w x W (nrows Target) true Hc).
    rewrite HX. subst F w1. destruct (_featurizer w); reflexivity.
  - intros x HX Hc F.
    assert (HY : _is_Y w = true) by (destruct (_is_Y w); [reflexivity|discriminate]).
    rewrite predict_unfold. rewrite HX at 1 2.
    rewrite (combine_expanded w x W (length x) false Hc).
    rewrite HX. subst F. destruct (_featurizer w); rewrite HY; reflexivity.
  - intros Target sw g Hc.
    destruct (negb (_is_Y w) && _discrete_treatment w) eqn:Hn.
    + apply andb_prop in Hn as [HY HD]. apply negb_true_iff in HY.
      destruct Target as [v|m].
      * unfold fit. run. rewrite HY, HD. simpl.
        destruct (forallb is_zero v); reflexivity.
      * rewrite fit_treatment_discrete by assumption. unfold labels_checked.
        destruct (any_all_zero_axis0 m || negb (any_all_zero_axis1 m));
          [reflexivity|]. simpl. rewrite length_map.
        rewrite (combine_plain w X W (length m) true Hc). reflexivity.
    + rewrite fit_no_conversion by assumption. run.
      rewrite (combine_plain w X W (nrows Target) true Hc). reflexivity.
  - intros Hc n. rewrite predict_unfold. fold n.
    rewrite (combine_plain w X W n false Hc). fold (plain_block X W n).
    reflexivity.
  - intros n. unfold expanded_block.
    replace (hstack (ones (length (plain_block None W n)) 1)
                    (repeat [] (length (plain_block None W n))))
      with (ones (length (plain_block None W n)) 1).
    + apply cross_product_ones.
    + unfold hstack, ones. induction (length (plain_block None W n)); simpl;
        [reflexivity | now f_equal].
Qed.

(** C10: [score] never raises InvalidFoldSplit.  Without a [score] method
    on the model the result is [None]; with one, a discrete treatment model
    turns any one-hot block into labels, with no check of the fold's
    coverage, and returns the model's score. *)
Theorem score_never_InvalidFoldSplit (w : wrapper) X W Target sw :
  (forall s log, score X W Target sw w <> Raise InvalidFoldSplit s log)
  /\ (model_score (_model w) = None -> score X W Target sw w = Ok None w [])
  /\ (forall sc m,
        model_score (_model w) = Some sc ->
        _is_Y w = false -> _discrete_treatment w = true ->
        score X W (Mat m) sw w =
          Ok (Some (sc (plain_block X W (length m)) (labels_of m) sw)) w [])
  /\ (forall sc,
        model_score (_model w) = Some sc ->
        negb (_is_Y w) && _discrete_treatment w = false ->
        exists D w' log,
          _combine X W (nrows Target) true w = Ok D w' log /\
          score X W Target sw w = Ok (Some (sc D Target sw)) w' log).
Proof.
  pose proof (score_unfold w X W Target sw) as HS.
  refine (conj _ (conj _ (conj _ _))).
  - intros s log. rewrite HS.
    destruct (model_score (_model w)) as [sc|]; [|discriminate].
    destruct (if negb (_is_Y w) && _discrete_treatment w
              then inverse_onehot Target else Some Target) as [T'|]; [|discriminate].
    destruct (combine_total w X W (nrows T') true) as (D & w' & l & ->).
    discriminate.
  - intros Hn. rewrite HS. now rewrite Hn.
  - intros sc m Hs HY HD. rewrite score_unfold, Hs, HY, HD. simpl.
    rewrite length_map.
    rewrite combine_plain by (left; rewrite HY; reflexivity). reflexivity.
  - intros sc Hs Hnd. rewrite HS, Hs, Hnd.
    destruct (combine_total w X W (nrows Target) true) as (D & w' & l & ->).
    exists D, w', l. split; reflexivity.
Qed.

End FirstStage.

(** ** [_FinalWrapper] *)

Section FinalStage.
Context {Mdl Fz : Type} {R : Regressor Mdl} {Tr : Transformer Fz}.
Import _FinalWrapper.

Local Notation "'wrapper'" := (_FinalWrapper.t Mdl Fz).

Lemma featurize_eq (w : wrapper) x fitting :
  featurize x fitting w = Ok (features w x fitting) (refit w x fitting) [].
Proof.
  unfold featurize, features, refit, featurize_original. run.
  destruct (_featurizer w), (_original_featurizer w); run;
    try reflexivity; destruct fitting; reflexivity.
Qed.

Lemma combine_present (w : wrapper) x T fitting :
  _combine (Some x) T fitting w =
    Ok (cross_product (features w x fitting) T) (refit w x fitting) [].
Proof.
  unfold _combine. unfold bind at 1. rewrite featurize_eq. reflexivity.
Qed.

Lemma combine_absent (w : wrapper) T fitting :
  _combine None T fitting w =
    if _fit_cate_intercept w
    then Ok (cross_product (ones (nrows T) 1) T) w []
    else if _use_weight_trick w
         then Raise InfeasibleConfiguration_weight_trick_X_None w []
         else Raise InfeasibleConfiguration_X_None_no_intercept w [].
Proof.
  unfold _combine. run.
  destruct (_fit_cate_intercept w), (_use_weight_trick w); reflexivity.
Qed.

(** [fit] in standard mode, step by step. *)
Lemma fit_standard (w : wrapper) X T Y sw sv :
  _use_weight_trick w = false ->
  fit X T Y sw sv w =
    match _combine X T true (with_dims w T Y) with
    | Raise e s log => Raise e s log
    | Ok fts w1 log =>
        let fitted := model_fit (_model w1) (standard_call fts Y sw sv) in
        let probe := model_predict fitted (zeros_like (firstn 1 fts)) in
        if (0 <? count_nonzero probe)%nat
        then Ok tt (set_intercept (set_model w1 fitted) (Some probe))
                (log ++ [NonzeroInterceptWarning])
        else Ok tt (set_intercept (set_model w1 fitted) None) log
    end.
Proof.
  intros Hw. unfold fit. run. rewrite Hw. simpl. fold (with_dims w T Y).
  destruct (_combine X T true (with_dims w T Y)) as [fts w1 log|e s log];
    [|reflexivity].
  simpl. unfold standard_call.
  destruct (0 <? count_nonzero _)%nat; simpl; rewrite ?app_nil_r; reflexivity.
Qed.

(** [fit] in weighting-trick mode, step by step. *)
Lemma fit_weight_trick (w : wrapper) X T Y sw sv :
  _use_weight_trick w = true ->
  fit X T Y sw sv w =
    if negb (_fit_cate_intercept w)
    then if multi_column T
         then Raise UnsupportedTreatmentDimension (with_dims w T Y) []
         else match _combine X (Vec (ones1 (nrows T))) true (with_dims w T Y) with
              | Raise e s log => Raise e s log
              | Ok F w1 log =>
                  Ok tt (set_model (set_intercept w1 None)
                           (model_fit (_model w1) (weight_trick_call F T Y sw sv)))
                     log
              end
    else Raise InfeasibleConfiguration_combination (with_dims w T Y) [].
Proof.
  intros Hw. unfold fit. run. rewrite Hw. simpl. fold (with_dims w T Y).
  destruct (_fit_cate_intercept w); simpl; [reflexivity|].
  fold (multi_column T). destruct (multi_column T); [reflexivity|].
  destruct (_combine X (Vec (ones1 (nrows T))) true (with_dims w T Y))
    as [F w1 log|e s log]; [|reflexivity].
  simpl. rewrite ?app_nil_r. reflexivity.
Qed.

(** [fit] on a freshly built weighting-trick wrapper. *)
Lemma fit_weight_trick_init (m : Mdl) fci (fz : option Fz) X T Y sw sv :
  fit X T Y sw sv (__init__ m fci fz true) =
    if multi_column T
    then Raise UnsupportedTreatmentDimension
           (with_dims (__init__ m fci fz true) T Y) []
    else match _combine X (Vec (ones1 (nrows T))) true
                 (with_dims (__init__ m fci fz true) T Y) with
         | Raise e s log => Raise e s log
         | Ok F w1 log =>
             Ok tt (set_model (set_intercept w1 None)
                      (model_fit (_model w1) (weight_trick_call F T Y sw sv)))
                log
         end.
Proof. now rewrite fit_weight_trick. Qed.

Lemma multi_column_iff (T : ndarray) :
  multi_column T = true <-> exists m, T = Mat m /\ (1 < ncols m)%nat.
Proof.
  unfold multi_column. destruct T as [v|m]; simpl.
  - split; [discriminate | intros (m & Hm & _); discriminate].
  - rewrite Nat.ltb_lt. split.
    + intros Hc. exists m. split; [reflexivity | assumption].
    + intros (m' & Hm & Hc). inversion Hm. subst. assumption.
Qed.

(** C7: in standard mode with [X] absent, [fit] raises
    InfeasibleConfiguration on the spot when no intercept was requested;
    with an intercept the features are the single column of ones, so the
    model is fitted on cross_product(ones, T_res) and the call returns. *)
Theorem fit_standard_X_absent (m : Mdl) (fz : option Fz) T Y sw sv :
  (exists s,
     fit None T Y sw sv (__init__ m false fz false) =
       Raise InfeasibleConfiguration_X_None_no_intercept s []
     /\ is_InfeasibleConfiguration InfeasibleConfiguration_X_None_no_intercept = true)
  /\ (exists w' log,
        fit None T Y sw sv (__init__ m true fz false) = Ok tt w' log
        /\ _model w' =
             model_fit (clone m)
               (standard_call (cross_product (ones (nrows T) 1) T) Y sw sv)).
Proof.
  split.
  - eexists. rewrite fit_standard by reflexivity.
    rewrite combine_absent. split; reflexivity.
  - rewrite fit_standard by reflexivity. rewrite combine_absent.
    cbv zeta. change (_fit_cate_intercept (with_dims (__init__ m true fz false) T Y))
      with true. cbv iota.
    destruct (0 <? count_nonzero _)%nat; do 2 eexists; split; reflexivity.
Qed.

(** C8: in weighting-trick mode [fit] raises UnsupportedTreatmentDimension
    if and only if the treatment residual is a matrix with more than one
    column; on a vector or a single-column matrix it does not. *)
Theorem weight_trick_UnsupportedTreatmentDimension_iff
    (m : Mdl) (fci : bool) (fz : option Fz) X T Y sw sv :
  (exists s log,
     fit X T Y sw sv (__init__ m fci fz true) =
       Raise UnsupportedTreatmentDimension s log)
  <-> (exists M, T = Mat M /\ (1 < ncols M)%nat).
Proof.
  rewrite <- multi_column_iff, fit_weight_trick_init.
  destruct (multi_column T).
  - split; [reflexivity | intros _; eauto].
  - split; [|discriminate]. intros (s & log & Hf). exfalso.
    destruct X as [x|].
    + rewrite combine_present in Hf. discriminate.
    + rewrite combine_absent in Hf. simpl in Hf. discriminate.
Qed.

(** C3 (amended): with the weighting trick the constructor stores the
    intercept flag as false whatever was requested, so the wrapper is the
    one built without intercept; [fit] never raises the infeasible
    combination error and fits the weighted regression on the features
    without intercept column. *)
Theorem weight_trick_ignores_intercept_request (m : Mdl) (fci : bool) (fz : option Fz) :
  __init__ m fci fz true = __init__ m false fz true
  /\ _fit_cate_intercept (__init__ m fci fz true) = false
  /\ forall X T Y sw sv,
       (forall e s log,
          fit X T Y sw sv (__init__ m fci fz true) = Raise e s log ->
          e = UnsupportedTreatmentDimension
          \/ e = InfeasibleConfiguration_weight_trick_X_None)
       /\ (forall x,
             X = Some x -> multi_column T = false ->
             let w0 := with_dims (__init__ m fci fz true) T Y in
             fit X T Y sw sv (__init__ m fci fz true) =
               Ok tt (set_model (set_intercept (refit w0 x true) None)
                        (model_fit (clone m)
                           (weight_trick_call
                              (cross_product
                                 (match fz with
                                  | Some f => snd (fit_transform (clone_featurizer f) x)
                                  | None => x
                                  end)
                                 (Vec (ones1 (nrows T))))
                              T Y sw sv))) []).
Proof.
  split; [reflexivity|]. split; [reflexivity|].
  intros X T Y sw sv. split.
  - intros e s log. rewrite fit_weight_trick_init.
    destruct (multi_column T).
    + intros Hf. inversion Hf. now left.
    + destruct X as [x|].
      * rewrite combine_present. discriminate.
      * rewrite combine_absent. simpl. intros Hf. inversion Hf. now right.
  - intros x -> Hm w0. rewrite fit_weight_trick_init, Hm, combine_present.
    subst w0. destruct fz as [f|]; reflexivity.
Qed.

Lemma refit_transform (w : wrapper) x : refit w x false = w.
Proof.
  unfold refit. destruct (_featurizer w), (_original_featurizer w); reflexivity.
Qed.

(** [predict] on a wrapper whose fit attributes are set. *)
Lemma predict_fitted (w : wrapper) X d_t d_y c :
  _d_t w = Some d_t -> _d_y w = Some d_y -> _intercept w = Some c ->
  predict X w =
    match X with
    | Some x =>
        Ok (reshape_treatmentwise_effects
              (subtract_intercept c
                 (model_predict (_model w) (cate_design w x (unit_treatments d_t))))
              d_t d_y) w []
    | None =>
        if _fit_cate_intercept w
        then Ok (reshape_treatmentwise_effects
                   (subtract_intercept c
                      (model_predict (_model w)
                         (cate_design_absent (unit_treatments d_t))))
                   d_t d_y) w []
        else if _use_weight_trick w
             then Raise InfeasibleConfiguration_weight_trick_X_None w []
             else Raise InfeasibleConfiguration_X_None_no_intercept w []
    end.
Proof.
  intros Ht Hy Hc. unfold predict. unfold bind at 1. unfold get at 1.
  rewrite Ht. fold (unit_treatments d_t). unfold bind at 1.
  destruct X as [x|].
  - rewrite combine_present, refit_transform. run. rewrite Hc, Hy.
    unfold cate_design. destruct c; reflexivity.
  - rewrite combine_absent.
    destruct (_fit_cate_intercept w); [|destruct (_use_weight_trick w); reflexivity].
    run. rewrite Hc, Hy. unfold cate_design_absent. destruct c; reflexivity.
Qed.

(** C5: after a standard-mode fit the fitted model is evaluated on one
    all-zero design row.  A non-zero output is recorded as the intercept
    correction, a warning is emitted and the fit returns; every later
    [predict] subtracts the recorded value before reshaping and leaves the
    wrapper as it is.  When every output is zero nothing is recorded, no
    warning is emitted and the predictions are reshaped unmodified. *)
Theorem intercept_correction (w : wrapper) X T Y sw sv fts w1 log :
  _use_weight_trick w = false ->
  _combine X T true (with_dims w T Y) = Ok fts w1 log ->
  fts <> [] ->
  let fitted := model_fit (_model w1) (standard_call fts Y sw sv) in
  let probe := model_predict fitted [map (fun _ => 0) (hd [] fts)] in
  let d_t := tl (shape T) in
  let d_y := tl (shape Y) in
  let design w' Xp :=
    match Xp with
    | Some x => cate_design w' x (unit_treatments d_t)
    | None => cate_design_absent (unit_treatments d_t)
    end in
  ((0 < count_nonzero probe)%nat ->
   let w' := set_intercept (set_model w1 fitted) (Some probe) in
   fit X T Y sw sv w = Ok tt w' (log ++ [NonzeroInterceptWarning])
   /\ forall Xp,
        Xp <> None \/ _fit_cate_intercept w' = true ->
        predict Xp w' =
          Ok (reshape_treatmentwise_effects
                (isub (model_predict fitted (design w' Xp)) probe) d_t d_y) w' [])
  /\ (count_nonzero probe = 0%nat ->
      let w' := set_intercept (set_model w1 fitted) None in
      fit X T Y sw sv w = Ok tt w' log
      /\ forall Xp,
           Xp <> None \/ _fit_cate_intercept w' = true ->
           predict Xp w' =
             Ok (reshape_treatmentwise_effects
                   (model_predict fitted (design w' Xp)) d_t d_y) w' []).
Proof.
  intros Hw HC Hne fitted probe d_t d_y design.
  pose proof (fit_standard w X T Y sw sv Hw) as Hfit. rewrite HC in Hfit.
  cbv zeta in Hfit.
  assert (Hz : zeros_like (firstn 1 fts) = [map (fun _ => 0) (hd [] fts)]).
  { destruct fts; [contradiction | reflexivity]. }
  rewrite Hz in Hfit. fold fitted in Hfit. fold probe in Hfit.
  assert (Hd : _d_t w1 = Some d_t /\ _d_y w1 = Some d_y).
  { destruct X as [x|].
    - rewrite combine_present in HC. inversion HC. subst w1.
      unfold refit.
      destruct (_featurizer (with_dims w T Y)),
               (_original_featurizer (with_dims w T Y)); split; reflexivity.
    - rewrite combine_absent in HC.
      destruct (_fit_cate_intercept (with_dims w T Y));
        [|destruct (_use_weight_trick (with_dims w T Y)); discriminate].
      inversion HC. split; reflexivity. }
  destruct Hd as [Hdt Hdy].
  split.
  - intros Hpos w'. apply Nat.ltb_lt in Hpos. rewrite Hpos in Hfit.
    split; [exact Hfit|].
    intros Xp HXp.
    rewrite (predict_fitted w' Xp d_t d_y (Some probe) Hdt Hdy eq_refl).
    destruct Xp as [xp|]; [reflexivity|].
    destruct HXp as [HXp|HXp]; [contradiction|]. rewrite HXp. reflexivity.
  - intros Hzero w'. rewrite Hzero in Hfit. simpl in Hfit.
    split; [exact Hfit|].
    intros Xp HXp.
    rewrite (predict_fitted w' Xp d_t d_y None Hdt Hdy eq_refl).
    destruct Xp as [xp|]; [reflexivity|].
    destruct HXp as [HXp|HXp]; [contradiction|]. rewrite HXp. reflexivity.
Qed.

End FinalStage.

(** ** [DML] *)

Section Estimator.
Context {Mdl Fz RS : Type} {R : Regressor Mdl} {Tr : Transformer Fz}
        {A : AutoModels Mdl RS}.
Import DML.


End Estimator.

(** ** The weighting trick *)

Lemma map2_map_r {A B C D : Type} (f : A -> B -> C) (g : D -> B) (l : list A)
    (l' : list D) :
  map2 f l (map g l') = map2 (fun a x => f a (g x)) l l'.
Proof.
  revert l'. induction l as [|a l IH]; intros [|d l']; simpl; try reflexivity.
  now rewrite IH.
Qed.

Lemma ncols_map2 {A : Type} (f : list Q -> A -> list Q) (l : matrix) (l' : list A) :
  length l = length l' ->
  (forall a b, length (f a b) = length a) ->
  ncols (map2 f l l') = ncols l.
Proof.
  intros Hlen Hf. destruct l as [|a l], l' as [|b l']; simpl in *;
    try discriminate; [reflexivity | apply Hf].
Qed.

Lemma length_cross_row_single (a : list Q) (c : Q) :
  length (cross_row a [c]) = length a.
Proof. unfold cross_row. simpl. now rewrite app_nil_r, length_map. Qed.

(** The design row of standard mode is the feature row scaled by the
    residual: its product with coefficients is the effect times the
    residual. *)
Lemma dot_cross_row (r b : list Q) (t : Q) :
  dot (cross_row r [t]) b == dot r b * t.
Proof.
  unfold cross_row, dot. simpl. rewrite app_nil_r.
  revert b. induction r as [|x r IH]; intros [|y b]; simpl; try ring.
  rewrite IH. ring.
Qed.

(** One sample of the weighting trick: with the residual [t] non-zero and
    the divisor [c] equal to it, [t^2 (y/c - p)^2 = (y - p t)^2], summed
    over the outcomes. *)
Lemma weight_trick_sample (t c : Q) (y p : list Q) :
  c == t -> ~ t == 0 ->
  (t * t) * row_sqerr (map (fun v => v / c) y) p == residual_row t y p.
Proof.
  intros Hc Ht. unfold row_sqerr, residual_row.
  revert p. induction y as [|a y IH]; intros [|b p]; simpl; try ring.
  rewrite <- IH. unfold sq. rewrite Hc. field. exact Ht.
Qed.

(** The same sample in standard mode, for linear coefficients. *)
Lemma standard_sample_scaled (t : Q) (r1 r2 y : list Q) (B : matrix) :
  (forall b, dot r1 b == dot r2 b * t) ->
  row_sqerr y (linear B r1) == residual_row t y (linear B r2).
Proof.
  intros Hdot. unfold row_sqerr, residual_row, linear.
  revert B. induction y as [|a y IH]; intros [|b B]; simpl; try reflexivity.
  rewrite IH. unfold sq. rewrite Hdot. reflexivity.
Qed.

Lemma standard_sample (t : Q) (r y : list Q) (B : matrix) :
  row_sqerr y (linear B (cross_row r [t]))
  == residual_row t y (linear B (cross_row r [1])).
Proof.
  apply standard_sample_scaled. intros b. rewrite !dot_cross_row. ring.
Qed.

Lemma rows_of_np_div (Y : ndarray) (c : list Q) :
  rows_of (np_div Y c (1 <? ndim Y)%nat)
  = map2 (fun y ci => map (fun v => v / ci) y) (rows_of Y) c.
Proof.
  destruct Y as [v|m]; simpl; [|reflexivity].
  revert c. induction v as [|a v IH]; intros [|ci c]; simpl; try reflexivity.
  now rewrite IH.
Qed.

Lemma ndim_np_div (Y : ndarray) (c : list Q) :
  ndim (np_div Y c (1 <? ndim Y)%nat) = ndim Y.
Proof. destruct Y; reflexivity. Qed.

Lemma rows_of_single_dimensional (T : ndarray) :
  single_dimensional T -> rows_of T = map (fun t => [t]) (ravel T).
Proof.
  destruct T as [v|m]; simpl; [reflexivity|].
  induction 1 as [|r m Hr _ IH]; simpl; [reflexivity|].
  destruct r as [|t [|? ?]]; try discriminate. simpl. f_equal. exact IH.
Qed.

Lemma length_ravel_single_dimensional (T : ndarray) :
  single_dimensional T -> length (ravel T) = nrows T.
Proof.
  intros HT. rewrite <- (length_map (fun t => [t])), <- rows_of_single_dimensional
    by exact HT.
  destruct T; simpl; [now rewrite length_map | reflexivity].
Qed.

Lemma length_rows_of (A : ndarray) : length (rows_of A) = nrows A.
Proof. destruct A; simpl; [now rewrite length_map | reflexivity]. Qed.

Lemma single_dimensional_not_multi_column (T : ndarray) :
  single_dimensional T -> multi_column T = false.
Proof.
  destruct T as [v|m]; simpl; [reflexivity|]. unfold multi_column. simpl.
  intros Hm. destruct m as [|r m]; [reflexivity|]. inversion Hm as [|? ? Hr _].
  simpl. rewrite Hr. reflexivity.
Qed.

Section WeightingTrickLoss.
Variables (F : matrix) (T Y : ndarray) (sw : option (list Q)) (sv : option ndarray).
Hypothesis HT : single_dimensional T.
Hypothesis HF : length F = nrows T.
Hypothesis HY : nrows Y = nrows T.
Hypothesis Hsw : forall w, sw = Some w -> length w = nrows T.
Hypothesis Heps : Forall (fun t => eps <= Qabs t) (ravel T).

Local Notation "'n'" := (nrows T).
Local Notation "'ts'" := (ravel T).
Local Notation "'ws'" := (match sw with Some w => w | None => repeat 1 (nrows T) end).
Local Notation "'cw'" :=
  (_FinalWrapper.weight_trick_call (cross_product F (Vec (ones1 (nrows T)))) T Y sw sv).
Local Notation "'cs'" := (standard_call (cross_product F T) Y sw sv).

Lemma length_ts : length ts = n.
Proof. now apply length_ravel_single_dimensional. Qed.

Lemma length_ws : length ws = n.
Proof. destruct sw as [w|]; [now apply Hsw | apply repeat_length]. Qed.

Lemma length_design_cw : length (design cw) = n.
Proof.
  simpl. unfold cross_product. rewrite length_map2. simpl.
  unfold ones1. rewrite length_map, repeat_length, HF. lia.
Qed.

Lemma length_design_cs : length (design cs) = n.
Proof.
  simpl. unfold cross_product. rewrite length_map2, length_rows_of, HF. lia.
Qed.

Lemma nth_design_cw (i : nat) :
  (i < n)%nat -> nth i (design cw) [] = cross_row (nth i F []) [1].
Proof.
  intros Hi. simpl. unfold cross_product. simpl. unfold ones1.
  rewrite (nth_map2 cross_row F _ i [] [] [])
    by (rewrite ?length_map, ?repeat_length, ?HF; lia).
  rewrite (nth_map_lt (fun y => [y]) _ i 0 []) by (rewrite repeat_length; lia).
  now rewrite nth_repeat_lt.
Qed.

Lemma nth_design_cs (i : nat) :
  (i < n)%nat -> nth i (design cs) [] = cross_row (nth i F []) [nth i ts 0].
Proof.
  intros Hi. simpl. unfold cross_product.
  rewrite (rows_of_single_dimensional T HT).
  rewrite (nth_map2 cross_row F _ i [] [] [])
    by (rewrite ?length_map, ?length_ts, ?HF; lia).
  now rewrite (nth_map_lt (fun t => [t]) _ i 0 []) by (rewrite length_ts; lia).
Qed.

Lemma length_target_cw : length (rows_of (target cw)) = n.
Proof.
  simpl. rewrite rows_of_np_div, length_map2, length_map, length_rows_of, length_ts.
  lia.
Qed.

Lemma nth_target_cw (i : nat) :
  (i < n)%nat ->
  nth i (rows_of (target cw)) []
  = map (fun v => v / _FinalWrapper.clip_residual (nth i ts 0)) (nth i (rows_of Y) []).
Proof.
  intros Hi. simpl. rewrite rows_of_np_div.
  rewrite (nth_map2 _ (rows_of Y) _ i [] 0 [])
    by (rewrite ?length_map, ?length_rows_of, ?length_ts; lia).
  now rewrite (nth_map_lt _FinalWrapper.clip_residual _ i 0 0)
    by (rewrite length_ts; lia).
Qed.

Lemma length_weights_cw : length (weights_of cw) = n.
Proof.
  unfold weights_of. simpl. destruct sw as [w|].
  - rewrite length_map2, length_map, length_ts, (Hsw w eq_refl). lia.
  - now rewrite length_map, length_ts.
Qed.

Lemma nth_weights_cw (i : nat) :
  (i < n)%nat ->
  nth i (weights_of cw) 0 == nth i ws 0 * (nth i ts 0 * nth i ts 0).
Proof.
  intros Hi. unfold weights_of. simpl. destruct sw as [w|].
  - rewrite (nth_map2 Qmult w _ i 0 0 0)
      by (rewrite ?length_map, ?length_ts, ?(Hsw w eq_refl); lia).
    rewrite (nth_map_lt (fun t => t * t) _ i 0 0) by (rewrite length_ts; lia).
    reflexivity.
  - rewrite (nth_map_lt (fun t => t * t) _ i 0 0) by (rewrite length_ts; lia).
    rewrite nth_repeat_lt by exact Hi. ring.
Qed.

Lemma weights_cs : weights_of cs = ws.
Proof.
  assert (Hl : length (cross_product F T) = n) by exact length_design_cs.
  unfold weights_of. simpl. destruct sw as [w|]; [reflexivity|].
  now rewrite Hl.
Qed.

Lemma residual_in_range (i : nat) : (i < n)%nat -> eps <= Qabs (nth i ts 0).
Proof.
  intros Hi. rewrite Forall_forall in Heps. apply Heps, nth_In.
  rewrite length_ts. exact Hi.
Qed.

(** For every predictor the weighted loss of the weighting-trick call is
    the residual-on-residual loss. *)
Lemma weight_trick_loss (f : list Q -> list Q) :
  weighted_loss cw f == residual_loss (design cw) ts (rows_of Y) ws f.
Proof.
  unfold weighted_loss, residual_loss.
  assert (Hlc : length (combine (design cw) ts) = n).
  { rewrite length_combine, length_design_cw, length_ts. lia. }
  apply sum_pointwise.
  - rewrite !length_map2, length_weights_cw, length_design_cw, length_target_cw,
      length_ws, Hlc, length_rows_of, HY. reflexivity.
  - rewrite !length_map2, length_weights_cw, length_design_cw, length_target_cw.
    intros i Hi. assert (Hin : (i < n)%nat) by lia.
    rewrite (nth_map2 Qmult _ _ i 0 0 0)
      by (rewrite ?length_map2, ?length_weights_cw, ?length_design_cw,
            ?length_target_cw; lia).
    rewrite (nth_map2 _ (design cw) _ i [] [] 0)
      by (rewrite ?length_design_cw, ?length_target_cw; lia).
    rewrite (nth_map2 Qmult ws _ i 0 0 0)
      by (rewrite ?length_map2, ?length_ws, ?Hlc, ?length_rows_of, ?HY; lia).
    rewrite (nth_map2 _ (combine (design cw) ts) _ i ([], 0) [] 0)
      by (rewrite ?Hlc, ?length_rows_of, ?HY; lia).
    rewrite combine_nth by (rewrite length_design_cw, length_ts; reflexivity).
    cbn [fst snd].
    rewrite nth_weights_cw, nth_target_cw by exact Hin.
    rewrite <- Qmult_assoc.
    rewrite weight_trick_sample;
      [reflexivity
      | apply clip_residual_id, residual_in_range, Hin
      | apply residual_nonzero, residual_in_range, Hin].
Qed.

(** For linear coefficients the residual-on-residual loss is the loss of
    the standard-mode call. *)
Lemma standard_loss (B : matrix) :
  residual_loss (design cw) ts (rows_of Y) ws (linear B)
  == weighted_loss cs (linear B).
Proof.
  unfold weighted_loss, residual_loss. rewrite weights_cs.
  assert (Hlc : length (combine (design cw) ts) = n).
  { rewrite length_combine, length_design_cw, length_ts. lia. }
  assert (Hts : rows_of (target cs) = rows_of Y) by reflexivity.
  rewrite Hts.
  apply sum_pointwise.
  - rewrite !length_map2, Hlc, length_design_cs. reflexivity.
  - rewrite !length_map2, length_ws, Hlc, length_rows_of, HY.
    intros i Hi. assert (Hin : (i < n)%nat) by lia.
    rewrite (nth_map2 Qmult ws _ i 0 0 0)
      by (rewrite ?length_map2, ?length_ws, ?Hlc, ?length_rows_of, ?HY; lia).
    rewrite (nth_map2 _ (combine (design cw) ts) _ i ([], 0) [] 0)
      by (rewrite ?Hlc, ?length_rows_of, ?HY; lia).
    rewrite (nth_map2 Qmult ws _ i 0 0 0)
      by (rewrite ?length_map2, ?length_ws, ?length_design_cs, ?length_rows_of,
            ?HY; lia).
    rewrite (nth_map2 _ (design cs) _ i [] [] 0)
      by (rewrite ?length_design_cs, ?length_rows_of, ?HY; lia).
    rewrite combine_nth by (rewrite length_design_cw, length_ts; reflexivity).
    cbn [fst snd].
    rewrite nth_design_cw, nth_design_cs by exact Hin.
    now rewrite standard_sample.
Qed.

Lemma weight_trick_standard_loss (B : matrix) :
  weighted_loss cw (linear B) == weighted_loss cs (linear B).
Proof. now rewrite weight_trick_loss, standard_loss. Qed.

Lemma ncols_target_calls :
  ncols (rows_of (target cw)) = ncols (rows_of (target cs)).
Proof.
  simpl. rewrite rows_of_np_div. apply ncols_map2.
  - now rewrite length_map, length_rows_of, length_ts.
  - intros a b. apply length_map.
Qed.

Lemma ncols_design_calls : ncols (design cw) = ncols (design cs).
Proof.
  simpl. unfold cross_product.
  rewrite (rows_of_single_dimensional T HT). simpl. unfold ones1.
  rewrite !map2_map_r, !ncols_map2; try reflexivity.
  - now rewrite length_ts.
  - intros a b. apply length_cross_row_single.
  - now rewrite repeat_length.
  - intros a b. apply length_cross_row_single.
Qed.

Lemma coef_shape_calls (B : matrix) : coef_shape cw B <-> coef_shape cs B.
Proof.
  unfold coef_shape. rewrite ncols_target_calls, ncols_design_calls. reflexivity.
Qed.

(** The two calls have the same ordinary least-squares solutions. *)
Lemma ols_solution_calls (B : matrix) : ols_solution cw B <-> ols_solution cs B.
Proof.
  unfold ols_solution. rewrite coef_shape_calls. split.
  - intros [Hs Hmin]. split; [exact Hs|]. intros B' HB'.
    rewrite <- !weight_trick_standard_loss. apply Hmin.
    now apply coef_shape_calls.
  - intros [Hs Hmin]. split; [exact Hs|]. intros B' HB'.
    rewrite !weight_trick_standard_loss. apply Hmin.
    now apply coef_shape_calls.
Qed.

End WeightingTrickLoss.

(** ** Ordinary least squares under the two modes *)

Lemma row_sqerr_nonneg (y p : list Q) : 0 <= row_sqerr y p.
Proof.
  unfold row_sqerr. apply sum_nonneg, Forall_map2.
  intros a b _ _. cbv beta. unfold sq.
  generalize (a - b). intros d.
  destruct (Qlt_le_dec d 0) as [Hd|Hd].
  - setoid_replace (d * d) with ((- d) * (- d)) by ring.
    apply Qmult_le_0_compat; lra.
  - now apply Qmult_le_0_compat.
Qed.

(** With non-negative weights the loss is non-negative, so coefficients of
    loss zero are a least-squares solution. *)
Lemma weighted_loss_nonneg (c : fit_call) (f : list Q -> list Q) :
  Forall (fun w => 0 <= w) (weights_of c) -> 0 <= weighted_loss c f.
Proof.
  intros Hw. unfold weighted_loss. apply sum_nonneg, Forall_map2.
  intros w e Hin He. rewrite Forall_forall in Hw. specialize (Hw w Hin).
  assert (0 <= e).
  { clear - He. revert He. generalize (rows_of (target c)).
    induction (design c) as [|r D IH]; intros [|y Ys]; simpl; try contradiction.
    intros [<-|He]; [apply row_sqerr_nonneg | now apply (IH Ys)]. }
  now apply Qmult_le_0_compat.
Qed.

Lemma zero_loss_ols_solution (c : fit_call) (B : matrix) :
  Forall (fun w => 0 <= w) (weights_of c) ->
  coef_shape c B -> weighted_loss c (linear B) == 0 -> ols_solution c B.
Proof.
  intros Hw Hs Hz. split; [exact Hs|]. intros B' _. rewrite Hz.
  now apply weighted_loss_nonneg.
Qed.

Lemma dot_zeros (r c : list Q) : dot (map (fun _ => 0) r) c == 0.
Proof.
  unfold dot. revert c. induction r as [|x r IH]; intros [|y c]; simpl;
    try reflexivity.
  rewrite IH. ring.
Qed.

Lemma predict_row_zeros (B : matrix) (r : list Q) :
  Forall (fun p => p == 0)
    (predict_row B (map (fun _ => 0) B) (map (fun _ => 0) r)).
Proof.
  unfold predict_row. induction B as [|b B IH]; simpl; constructor; [|exact IH].
  rewrite dot_zeros. ring.
Qed.

Lemma count_nonzero_zeros (A : ndarray) :
  Forall (fun p => p == 0) (ravel A) -> count_nonzero A = 0%nat.
Proof.
  unfold count_nonzero. induction 1 as [|p l Hp _ IH]; simpl; [reflexivity|].
  apply is_zero_iff in Hp. rewrite Hp. exact IH.
Qed.

(** A linear model without intercept predicts zero on all-zero rows, so
    the probe of standard mode finds nothing to correct. *)
Lemma ols_probe_zero (lstsq : fit_call -> matrix) (m : linear_model) (c : fit_call)
    (D : matrix) :
  count_nonzero
    (@model_predict _ (ols_regressor lstsq)
       (@model_fit _ (ols_regressor lstsq) m c) (zeros_like D)) = 0%nat.
Proof.
  apply count_nonzero_zeros. simpl. unfold linear_predict. simpl.
  destruct (ndim (target c) =? 1)%nat; simpl.
  - induction D as [|r D IH]; simpl; constructor; [|exact IH].
    pose proof (predict_row_zeros (lstsq c) r) as Hz.
    destruct (predict_row (lstsq c) (map (fun _ => 0) (lstsq c))
                (map (fun _ => 0) r)) as [|p l]; simpl; [reflexivity|].
    now inversion Hz.
  - induction D as [|r D IH]; simpl; [constructor|].
    apply Forall_app. split; [apply predict_row_zeros | exact IH].
Qed.

Lemma ols_model_fit (lstsq : fit_call -> matrix) (m : linear_model) (c : fit_call) :
  @model_fit _ (ols_regressor lstsq) m c =
    {| coef_ := lstsq c;
       intercept_ := map (fun _ => 0) (lstsq c);
       vector_output := Nat.eqb (ndim (target c)) 1 |}.
Proof. reflexivity. Qed.

Section WeightingTrick.
Context {Fz : Type} {Tr : Transformer Fz}.
Import _FinalWrapper.

(** C1: on a single-dimensional treatment residual with every
    [|T_i| >= 1e-5], the weighting-trick fit hands the regressor the target
    [Y_i / T_i] with weights [(w_i) T_i^2] on the features, the standard fit
    without intercept hands it [Y] on cross_product(features, T).  For every
    predictor [f] the weighted loss of the first call is the
    residual-on-residual loss; for every coefficient matrix the two calls
    have the same loss, hence the same least-squares solutions; and with
    ordinary least squares as the regressor the two fitted wrappers return
    the same CATE at every [X]. *)
Theorem weight_trick_equivalence (fz : option Fz) (x : matrix) (T Y : ndarray)
    (sw : option (list Q)) (sv : option ndarray) :
  let F := match fz with
           | Some f => snd (fit_transform (clone_featurizer f) x)
           | None => x
           end in
  let ws := match sw with Some w => w | None => repeat 1 (nrows T) end in
  let cw := weight_trick_call (cross_product F (Vec (ones1 (nrows T)))) T Y sw sv in
  let cs := standard_call (cross_product F T) Y sw sv in
  single_dimensional T ->
  Forall (fun t => eps <= Qabs t) (ravel T) ->
  length F = nrows T ->
  nrows Y = nrows T ->
  (forall w, sw = Some w -> length w = nrows T) ->
  (forall (Mdl : Type) (R : Regressor Mdl) (m : Mdl),
     let trick := fit (Some x) T Y sw sv (__init__ m false fz true) in
     let standard := fit (Some x) T Y sw sv (__init__ m false fz false) in
     value_of trick = Some tt
     /\ _model (state_of trick) = model_fit (clone m) cw
     /\ value_of standard = Some tt
     /\ _model (state_of standard) = model_fit (clone m) cs)
  /\ (forall f,
        weighted_loss cw f == residual_loss (design cw) (ravel T) (rows_of Y) ws f)
  /\ (forall B, weighted_loss cw (linear B) == weighted_loss cs (linear B))
  /\ (forall B, ols_solution cw B <-> ols_solution cs B)
  /\ (forall (lstsq : fit_call -> matrix) (m : linear_model) (Xp : matrix),
        respects_loss lstsq ->
        let R := ols_regressor lstsq in
        let trick := fit (Some x) T Y sw sv (__init__ m false fz true) in
        let standard := fit (Some x) T Y sw sv (__init__ m false fz false) in
        exists cate,
          value_of (predict (Some Xp) (state_of trick)) = Some cate
          /\ value_of (predict (Some Xp) (state_of standard)) = Some cate).
Proof.
  intros F ws cw cs HT Heps HF HY Hsw.
  pose proof (single_dimensional_not_multi_column T HT) as Hmc.
  refine (conj _ (conj _ (conj _ (conj _ _)))).
  - intros Mdl R m trick standard. subst trick standard.
    rewrite fit_weight_trick_init, Hmc, combine_present.
    rewrite fit_standard by reflexivity. rewrite combine_present. cbv zeta.
    split; [reflexivity|]. split; [destruct fz; reflexivity|].
    destruct (0 <? count_nonzero _)%nat; split; try reflexivity;
      destruct fz; reflexivity.
  - intros f. now apply weight_trick_loss.
  - intros B. now apply weight_trick_standard_loss.
  - intros B. now apply ols_solution_calls.
  - intros lstsq m Xp Hresp R trick standard. subst trick standard.
    rewrite fit_weight_trick_init, Hmc, combine_present.
    rewrite fit_standard by reflexivity. rewrite combine_present. cbv zeta.
    subst R. rewrite ols_probe_zero. cbn [Nat.ltb Nat.leb state_of].
    assert (Hcoef : lstsq cw = lstsq cs).
    { apply Hresp.
      - now apply ncols_design_calls.
      - now apply ncols_target_calls.
      - intros B _. now apply weight_trick_standard_loss. }
    clear Hresp HF. subst cw cs F.
    assert (Hnd : forall D,
              ndim (target (weight_trick_call D T Y sw sv))
              = ndim (target (standard_call (cross_product D T) Y sw sv))).
    { intros D. cbn [target weight_trick_call standard_call].
      apply ndim_np_div. }
    destruct fz as [f|];
      (erewrite (predict_fitted _ (Some Xp)); [|reflexivity..]);
      (erewrite (predict_fitted _ (Some Xp)); [|reflexivity..]);
      (eexists; split; [reflexivity|]); cbn [value_of]; f_equal;
      match goal with
      | |- reshape_treatmentwise_effects
             (subtract_intercept None (model_predict ?M1 ?D1)) _ _ =
           reshape_treatmentwise_effects
             (subtract_intercept None (model_predict ?M2 ?D2)) _ _ =>
          assert (HD : D1 = D2) by reflexivity;
          assert (HM : M1 = M2);
          [|rewrite HM, HD; reflexivity]
      end;
      cbn [_model set_model set_intercept]; rewrite !ols_model_fit.
    + change (features (with_dims (__init__ m false (Some f) true) T Y) x true)
        with (snd (fit_transform (clone_featurizer f) x)).
      change (features (with_dims (__init__ m false (Some f) false) T Y) x true)
        with (snd (fit_transform (clone_featurizer f) x)).
      rewrite Hcoef. f_equal. f_equal.
      rewrite (Hnd (cross_product (snd (fit_transform (clone_featurizer f) x))
                      (Vec (ones1 (nrows T))))).
      reflexivity.
    + change (features (with_dims (__init__ m false None true) T Y) x true) with x.
      change (features (with_dims (__init__ m false None false) T Y) x true) with x.
      rewrite Hcoef. f_equal. f_equal.
      rewrite (Hnd (cross_product x (Vec (ones1 (nrows T))))).
      reflexivity.
Qed.

End WeightingTrick.

(** ** Worked runs *)

(** A fold with the baseline and both other categories is accepted. *)
Lemma fit_InvalidFoldSplit_iff_witness :
  exists w',
    _FirstStageWrapper.fit (R := ols2) (Tr := counting_featurizer)
      (Some [[1]; [2]; [3]]) None (Mat fold_all_categories) None None
      treatment_classifier
    = Ok tt w' [].
Proof.
  eexists.
  apply (fit_InvalidFoldSplit_iff (R := ols2) (Tr := counting_featurizer)
           treatment_classifier
           (Some [[1]; [2]; [3]]) None fold_all_categories None None
           eq_refl eq_refl).
  split.
  - intros (j & Hj & Hall). unfold fold_all_categories in *. simpl in Hj.
    destruct j as [|[|j]]; [| |lia].
    + specialize (Hall [1; 0] (or_intror (or_introl eq_refl))). discriminate Hall.
    + specialize (Hall [0; 1] (or_intror (or_intror (or_introl eq_refl)))).
      discriminate Hall.
  - exists [0; 0]. split; [now left|].
    intros x [<-|[<-|[]]]; reflexivity.
Defined.

(** C2, as stated, fails: a fold whose block has every column set in some
    row and a column set in every row is rejected, since the baseline
    category never occurs; a fold with a row in which no column is set is
    accepted. *)
Lemma fit_rejects_fold_without_baseline :
  any_all_zero_axis0 fold_without_baseline = false
  /\ any_all_zero_axis1 fold_without_baseline = false
  /\ _FirstStageWrapper.fit (R := ols2) (Tr := counting_featurizer)
       (Some [[1]; [2]]) None (Mat fold_without_baseline) None None
       treatment_classifier
     = Raise InvalidFoldSplit treatment_classifier []
  /\ any_all_zero_axis1 fold_two_categories = true
  /\ exists w',
       _FirstStageWrapper.fit (R := ols2) (Tr := counting_featurizer)
         (Some [[1]; [2]]) None (Mat fold_two_categories) None None
         treatment_classifier
       = Ok tt w' [].
Proof.
  split; [reflexivity|]. split; [reflexivity|]. split; [reflexivity|].
  split; [reflexivity|]. eexists. reflexivity.
Qed.

(** [score] accepts the fold that [fit] rejects. *)
Example score_on_rejected_fold :
  exists r,
    _FirstStageWrapper.score (R := ols2) (Tr := counting_featurizer)
      (Some [[1]; [2]]) None (Mat fold_without_baseline) None
      treatment_classifier
    = Ok (Some r) treatment_classifier [].
Proof. eexists. reflexivity. Qed.

(** C3, as stated, fails: the weighting trick with an intercept requested
    fits, the request being dropped. *)
Lemma weight_trick_with_intercept_request_fits :
  exists w',
    _FinalWrapper.fit (R := ols2) (Tr := counting_featurizer)
      (Some ex_X) ex_T ex_Y None None (trick_wrapper true)
    = Ok tt w' []
    /\ _FinalWrapper._fit_cate_intercept w' = false.
Proof. eexists. split; reflexivity. Qed.

(** A model with intercept 3: the probe finds it, the fit warns and
    returns, and the prediction at [x = 5] is [8 - 3]. *)
Lemma intercept_correction_witness :
  exists w',
    _FinalWrapper.fit (R := affine3) (Tr := counting_featurizer)
      (Some [[1]]) (Mat [[2]]) (Mat [[4]]) None None (standard_wrapper false)
    = Ok tt w' [NonzeroInterceptWarning]
    /\ _FinalWrapper._intercept w' = Some (Some (Mat [[3]]))
    /\ _FinalWrapper.predict (R := affine3) (Tr := counting_featurizer)
         (Some [[5]]) w'
       = Ok (T3 [[[5]]]) w' [].
Proof.
  destruct (intercept_correction (R := affine3) (Tr := counting_featurizer)
              (standard_wrapper false)
              (Some [[1]]) (Mat [[2]]) (Mat [[4]]) None None
              [[2]]
              (with_dims (standard_wrapper false) (Mat [[2]]) (Mat [[4]]))
              [] eq_refl eq_refl ltac:(discriminate)) as [Hpos _].
  destruct (Hpos ltac:(apply Nat.ltb_lt; reflexivity)) as (Hfit & Hpred).
  eexists. split; [exact Hfit|]. split; [reflexivity|].
  apply (Hpred (Some [[5]])). left. discriminate.
Defined.

(** On the two samples the coefficient 2 is a least-squares solution of
    the standard-mode call. *)
Example slope2_least_squares :
  ols_solution (standard_call (cross_product ex_X ex_T) ex_Y None None) [[2]].
Proof.
  apply zero_loss_ols_solution.
  - repeat constructor; discriminate.
  - split; [reflexivity | repeat constructor].
  - reflexivity.
Qed.

(** Two samples with [Y = 2 X T], residuals above the clipping threshold:
    the hypotheses of the equivalence hold, the two calls have the same
    loss, the least-squares solution 2 of the standard call is one of the
    weighting-trick call, and least squares gives the same CATE in both
    modes. *)
Lemma weight_trick_equivalence_witness :
  (forall B,
     weighted_loss
       (_FinalWrapper.weight_trick_call
          (cross_product ex_X (Vec (ones1 (nrows ex_T)))) ex_T ex_Y None None)
       (linear B)
     == weighted_loss (standard_call (cross_product ex_X ex_T) ex_Y None None)
          (linear B))
  /\ ols_solution
       (_FinalWrapper.weight_trick_call
          (cross_product ex_X (Vec (ones1 (nrows ex_T)))) ex_T ex_Y None None)
       [[2]]
  /\ exists cate,
       value_of
         (_FinalWrapper.predict (R := ols_regressor (fun _ => [[2]]))
            (Tr := counting_featurizer) (Some [[5]])
            (state_of
               (_FinalWrapper.fit (R := ols_regressor (fun _ => [[2]]))
                  (Tr := counting_featurizer)
                  (Some ex_X) ex_T ex_Y None None
                  (_FinalWrapper.__init__ (R := ols_regressor (fun _ => [[2]]))
                     (Tr := counting_featurizer) unfitted false None true))))
       = Some cate
       /\ value_of
            (_FinalWrapper.predict (R := ols_regressor (fun _ => [[2]]))
               (Tr := counting_featurizer) (Some [[5]])
               (state_of
                  (_FinalWrapper.fit (R := ols_regressor (fun _ => [[2]]))
                     (Tr := counting_featurizer)
                     (Some ex_X) ex_T ex_Y None None
                     (_FinalWrapper.__init__ (R := ols_regressor (fun _ => [[2]]))
                        (Tr := counting_featurizer) unfitted false None false))))
          = Some cate.
Proof.
  assert (Heps : Forall (fun t => eps <= Qabs t) (ravel ex_T)).
  { repeat constructor; unfold Qle; simpl; lia. }
  destruct (weight_trick_equivalence (Tr := counting_featurizer)
              None ex_X ex_T ex_Y None None I Heps eq_refl eq_refl
              (fun w H => False_ind _ (eq_ind None
                 (fun o => match o with None => True | Some _ => False end)
                 I (Some w) H)))
    as (_ & _ & Hloss & Hols & Hpred).
  split; [exact Hloss|]. split.
  - apply (proj2 (Hols [[2]])). exact slope2_least_squares.
  - apply (Hpred (fun _ => [[2]]) unfitted [[5]]).
    intros c c' _ _ _. reflexivity.
Defined.


(** * Further properties of the code *)

(** ** Clipping of the treatment residual *)

(** The divisor of the weighting-trick target is never closer to zero than
    [1e-5] and has the sign of the residual, a zero residual counting as
    positive; it is the residual itself exactly when the residual is at
    least [1e-5] in absolute value. *)
Theorem clip_residual_bounds (t : Q) :
  eps <= Qabs (_FinalWrapper.clip_residual t)
  /\ (0 <= t -> eps <= _FinalWrapper.clip_residual t)
  /\ (t < 0 -> _FinalWrapper.clip_residual t <= - eps)
  /\ (_FinalWrapper.clip_residual t == t <-> eps <= Qabs t).
Proof.
  assert (Heps : 0 < eps) by reflexivity.
  assert (Hpos : 0 <= t -> eps <= _FinalWrapper.clip_residual t).
  { intros H0. unfold _FinalWrapper.clip_residual, clip_below, sign.
    apply Qle_bool_iff in H0 as Hb0. rewrite Hb0.
    assert (Hs : sign_zero_to_one (if Qle_bool t 0 then 0 else 1) = 1)
      by (destruct (Qle_bool t 0); reflexivity).
    rewrite Hs.
    destruct (Qle_bool eps (Qabs t)) eqn:Hc.
    - apply Qle_bool_iff in Hc. lra.
    - lra. }
  assert (Hneg : t < 0 -> _FinalWrapper.clip_residual t <= - eps).
  { intros H0. unfold _FinalWrapper.clip_residual, clip_below, sign.
    assert (Hb0 : Qle_bool 0 t = false).
    { destruct (Qle_bool 0 t) eqn:E; [|reflexivity].
      apply Qle_bool_iff in E. lra. }
    rewrite Hb0. change (sign_zero_to_one (- (1))) with (- (1)).
    destruct (Qle_bool eps (Qabs t)) eqn:Hc.
    - apply Qle_bool_iff in Hc. lra.
    - lra. }
  assert (Hbound : eps <= Qabs (_FinalWrapper.clip_residual t)).
  { destruct (Qlt_le_dec t 0) as [Hn|Hp].
    - specialize (Hneg Hn). rewrite Qabs_neg by lra. lra.
    - specialize (Hpos Hp). rewrite Qabs_pos by lra. lra. }
  split; [exact Hbound|]. split; [exact Hpos|]. split; [exact Hneg|].
  split.
  - intros E. rewrite <- E. exact Hbound.
  - apply clip_residual_id.
Qed.

(** ** Probing a linear model with unit treatments *)

Lemma dot_app (a b c : list Q) :
  dot (a ++ b) c == dot a c + dot b (skipn (length a) c).
Proof.
  unfold dot. revert c. induction a as [|x a IH]; intros c; simpl.
  - ring.
  - destruct c as [|y c]; simpl.
    + destruct b; simpl; ring.
    + rewrite IH. ring.
Qed.

Lemma dot_scaled (f c : list Q) (x : Q) :
  dot (map (fun a => a * x) f) c == x * dot f c.
Proof.
  unfold dot. revert c. induction f as [|a f IH]; intros [|y c]; simpl; try ring.
  rewrite IH. ring.
Qed.

Lemma cross_row_cons (f b : list Q) (x : Q) :
  cross_row f (x :: b) = map (fun a => a * x) f ++ cross_row f b.
Proof. reflexivity. Qed.

Lemma dot_cross_row_cons (f b c : list Q) (x : Q) :
  dot (cross_row f (x :: b)) c
  == x * dot f c + dot (cross_row f b) (skipn (length f) c).
Proof.
  rewrite cross_row_cons, dot_app, dot_scaled, length_map. reflexivity.
Qed.

Lemma dot_cross_row_zeros (f c : list Q) (z : list Q) :
  Forall (fun x => x == 0) z -> dot (cross_row f z) c == 0.
Proof.
  intros Hz. revert c. induction Hz as [|x z Hx _ IH]; intros c.
  - destruct c; reflexivity.
  - rewrite dot_cross_row_cons, IH, Hx. ring.
Qed.

Lemma unit_vector_succ (k t : nat) :
  unit_vector (S k) (S t) = 0 :: unit_vector k t.
Proof.
  unfold unit_vector. simpl. f_equal.
  rewrite <- seq_shift, map_map. reflexivity.
Qed.

Lemma unit_vector_zero (k : nat) :
  exists z, unit_vector (S k) 0 = 1 :: z /\ Forall (fun x => x == 0) z.
Proof.
  unfold unit_vector. simpl. eexists. split; [reflexivity|].
  rewrite <- seq_shift, map_map. apply Forall_forall.
  intros x Hx. apply in_map_iff in Hx as (j & <- & _). reflexivity.
Qed.

Lemma sum_map_ext {A : Type} (g h : A -> Q) (l : list A) :
  (forall a, In a l -> g a == h a) -> sum (map g l) == sum (map h l).
Proof.
  induction l as [|a l IH]; intros Hgh; simpl; [reflexivity|].
  rewrite (Hgh a) by now left. rewrite IH; [reflexivity|].
  intros b Hb. apply Hgh. now right.
Qed.

(** A linear function of the cross product of [f] with [T] is the sum over
    the treatments of [T_t] times its value on the cross product of [f]
    with the [t]-th unit vector. *)
Lemma dot_cross_row_unit_vectors (f T beta : list Q) :
  dot (cross_row f T) beta
  == sum (map (fun t => nth t T 0
                        * dot (cross_row f (unit_vector (length T) t)) beta)
              (seq 0 (length T))).
Proof.
  revert beta. induction T as [|x T IH]; intros beta.
  - destruct beta; reflexivity.
  - rewrite dot_cross_row_cons. cbn [length seq map sum fold_right nth].
    destruct (unit_vector_zero (length T)) as (z & Hu & Hz).
    rewrite Hu, dot_cross_row_cons, (dot_cross_row_zeros f _ z Hz).
    rewrite <- seq_shift, map_map.
    rewrite (IH (skipn (length f) beta)).
    fold (sum (map (fun t => nth (S t) (x :: T) 0
                 * dot (cross_row f (unit_vector (S (length T)) (S t))) beta)
                 (seq 0 (length T)))).
    rewrite (sum_map_ext
               (fun t => nth (S t) (x :: T) 0
                         * dot (cross_row f (unit_vector (S (length T)) (S t))) beta)
               (fun t => nth t T 0
                         * dot (cross_row f (unit_vector (length T) t))
                               (skipn (length f) beta))).
    + ring.
    + intros t _. cbn [nth]. rewrite unit_vector_succ, dot_cross_row_cons. ring.
Qed.

(** ** Reshaping panel data *)

Lemma concat_singletons {A : Type} (v : list A) : concat (map (fun y => [y]) v) = v.
Proof. induction v as [|a v IH]; simpl; [reflexivity | now rewrite IH]. Qed.

Lemma concat_concat {A : Type} (t : list (list (list A))) :
  concat (concat t) = concat (map (@concat A) t).
Proof.
  induction t as [|b t IH]; simpl; [reflexivity|].
  now rewrite concat_app, IH.
Qed.

(** Whatever [long] or [wide] returns holds the entries of its argument in
    the same row-major order. *)
Theorem panel_reshape_keeps_order (x y : tensor) :
  panel.long x = panel.Reshaped y \/ panel.wide x = panel.Reshaped y ->
  panel.entries y = panel.entries x.
Proof.
  intros [H|H].
  - destruct x as [v|m|t]; simpl in H.
    + discriminate.
    + inversion H. reflexivity.
    + destruct (_ =? 0)%nat; [discriminate|]. inversion H. simpl.
      apply concat_concat.
  - unfold panel.wide in H. destruct (panel.shape0 x =? 0)%nat; [discriminate|].
    destruct x as [v|m|t]; inversion H; simpl.
    + apply concat_singletons.
    + reflexivity.
    + reflexivity.
Qed.

(** [wide] does not undo [long].  On a panel of [n >= 1] units by [p >= 1]
    periods [long] gives the vector of the [n p] entries and [wide] turns it
    into a single column of [n p] rows, which is the panel again only when
    there is one period; and an array of three axes made long stays as it is
    under [wide]. *)
Theorem panel_wide_after_long (m : matrix) (p : nat) :
  m <> [] -> (1 <= p)%nat -> Forall (fun r => length r = p) m ->
  panel.long (T2 m) = panel.Reshaped (T1 (concat m))
  /\ panel.wide (T1 (concat m))
     = panel.Reshaped (T2 (map (fun y => [y]) (concat m)))
  /\ (map (fun y => [y]) (concat m) = m <-> p = 1%nat)
  /\ forall t y, panel.long (T3 t) = panel.Reshaped y ->
                 panel.wide y = panel.Reshaped y.
Proof.
  intros Hne Hp Hrows. split; [reflexivity|]. split.
  - unfold panel.wide. simpl.
    destruct m as [|r m']; [contradiction|]. inversion Hrows as [|? ? Hr _].
    destruct r as [|a r]; [simpl in Hr; lia|]. reflexivity.
  - split.
    + split.
      * intros E. destruct m as [|r m']; [contradiction|].
        inversion Hrows as [|? ? Hr _]. subst.
        destruct r as [|a r]; [simpl in Hp; lia|].
        simpl in E. inversion E. reflexivity.
      * intros ->. clear Hne Hp.
        induction Hrows as [|r m' Hr _ IH]; simpl; [reflexivity|].
        destruct r as [|a [|? ?]]; try discriminate. simpl. now rewrite IH.
    + intros t y H. simpl in H.
      destruct (length t * panel.shape1 t =? 0)%nat eqn:E; [discriminate|].
      inversion H. subst y. unfold panel.wide. simpl.
      destruct t as [|b t']; [discriminate|].
      destruct b as [|r b]; [|reflexivity].
      simpl in E. rewrite Nat.mul_0_r in E. discriminate.
Qed.

(** ** More on [_FirstStageWrapper] *)

Section FirstStageMore.
Context {Mdl Fz : Type} {R : Regressor Mdl} {Tr : Transformer Fz}.
Import _FirstStageWrapper.

Local Notation "'wrapper'" := (_FirstStageWrapper.t Mdl Fz).

(** [_combine] returns, keeps the model and the flags, and only a fitting
    call can replace the featurizer. *)
Lemma combine_state (w : wrapper) X W n fitting :
  exists D w',
    _combine X W n fitting w = Ok D w' []
    /\ _model w' = _model w
    /\ _is_Y w' = _is_Y w
    /\ _linear_first_stages w' = _linear_first_stages w
    /\ _discrete_treatment w' = _discrete_treatment w
    /\ (fitting = false -> w' = w).
Proof.
  destruct (_is_Y w && _linear_first_stages w) eqn:Hc.
  - destruct X as [x|].
    + rewrite (combine_expanded w x W n fitting Hc).
      destruct (_featurizer w) as [f|]; [destruct fitting|];
        do 2 eexists; (split; [reflexivity|]); repeat split; try reflexivity;
        discriminate.
    + rewrite combine_plain by now right.
      do 2 eexists. split; [reflexivity|]. repeat split; reflexivity.
  - rewrite combine_plain by now left.
    do 2 eexists. split; [reflexivity|]. repeat split; reflexivity.
Qed.

(** [predict] never refits: whatever the configuration it returns and
    leaves the wrapper, with its model and its fitted featurizer, as it
    was, without a warning. *)
Theorem first_stage_predict_keeps_wrapper (w : wrapper) X W :
  exists prediction, predict X W w = Ok prediction w [].
Proof.
  rewrite predict_unfold.
  destruct (combine_state w X W
              (match X with
               | Some x => length x
               | None => match W with Some w0 => length w0 | None => 1%nat end
               end) false) as (D & w' & HC & _ & _ & _ & _ & Hw).
  rewrite HC, (Hw eq_refl). eexists. reflexivity.
Qed.

(** [score] refits the featurizer.  On an outcome model with linear first
    stages, a featurizer and a model that can score, [score] on [x] leaves
    the featurizer fitted on [x], and a later [predict] featurizes with
    that state; in a configuration without the expansion, or with [X]
    absent, [score] leaves the wrapper as it was. *)
Theorem score_refits_featurizer (w : wrapper) (x : matrix) W Target sw f sc :
  _is_Y w = true -> _linear_first_stages w = true ->
  _featurizer w = Some f -> model_score (_model w) = Some sc ->
  let w' := set_featurizer w (fst (fit_transform f x)) in
  score (Some x) W Target sw w =
    Ok (Some (sc (expanded_block (plain_block (Some x) W (nrows Target))
                    (snd (fit_transform f x))) Target sw)) w' []
  /\ (forall x' W',
        predict (Some x') W' w' =
          Ok (model_predict (_model w)
                (expanded_block (plain_block (Some x') W' (length x'))
                   (transform (fst (fit_transform f x)) x'))) w' [])
  /\ (forall w0 X0 : _ , forall W0 T0 sw0,
        _is_Y w0 && _linear_first_stages w0 = false \/ X0 = None ->
        negb (_is_Y w0) && _discrete_treatment w0 = false ->
        exists r, score X0 W0 T0 sw0 (w0 : wrapper) = Ok r w0 []).
Proof.
  intros HY HL Hf Hs w'.
  assert (Hc : _is_Y w && _linear_first_stages w = true) by (now rewrite HY, HL).
  refine (conj _ (conj _ _)).
  - rewrite score_unfold, Hs, HY. cbn [negb andb].
    rewrite (combine_expanded w x W (nrows Target) true Hc), Hf. reflexivity.
  - intros x' W'. rewrite predict_unfold.
    assert (Hc' : _is_Y w' && _linear_first_stages w' = true) by exact Hc.
    rewrite (combine_expanded w' x' W' (length x') false Hc').
    cbn [_featurizer w' set_featurizer].
    change (_is_Y w') with (_is_Y w). rewrite HY. reflexivity.
  - intros w0 X0 W0 T0 sw0 Hplain Hnd.
    rewrite score_unfold, Hnd.
    destruct (model_score (_model w0)) as [sc0|]; [|eexists; reflexivity].
    rewrite (combine_plain w0 X0 W0 (nrows T0) true Hplain). eexists. reflexivity.
Qed.

(** For a discrete treatment [predict] returns each row of class
    probabilities without its first entry; when a row of probabilities is
    not empty and sums to one, the dropped baseline probability is one
    minus the sum of what is returned. *)
Theorem predict_drops_redundant_baseline (w : wrapper) X W :
  _is_Y w = false -> _discrete_treatment w = true ->
  let n := match X with
           | Some x => length x
           | None => match W with Some w0 => length w0 | None => 1%nat end
           end in
  let P := model_predict_proba (_model w) (plain_block X W n) in
  predict X W w = Ok (Mat (map (skipn 1) P)) w []
  /\ forall i,
       (i < length P)%nat -> nth i P [] <> [] -> sum (nth i P []) == 1 ->
       nth 0 (nth i P []) 0 == 1 - sum (nth i (map (skipn 1) P) []).
Proof.
  intros HY HD n P. split.
  - rewrite predict_unfold. fold n.
    rewrite (combine_plain w X W n false) by (left; now rewrite HY).
    fold (plain_block X W n). rewrite HY, HD. reflexivity.
  - intros i Hi Hne Hsum.
    rewrite (nth_map_lt (skipn 1) P i [] []) by exact Hi.
    destruct (nth i P []) as [|p0 r]; [contradiction|].
    simpl in *. lra.
Qed.

End FirstStageMore.

(** ** More on [_FinalWrapper] *)

Section FinalStageMore.
Context {Mdl Fz : Type} {R : Regressor Mdl} {Tr : Transformer Fz}.
Import _FinalWrapper.

Local Notation "'wrapper'" := (_FinalWrapper.t Mdl Fz).

Lemma refit_keeps (w : wrapper) x fitting :
  _model (refit w x fitting) = _model w
  /\ _use_weight_trick (refit w x fitting) = _use_weight_trick w
  /\ _fit_cate_intercept (refit w x fitting) = _fit_cate_intercept w
  /\ _d_t (refit w x fitting) = _d_t w
  /\ _d_y (refit w x fitting) = _d_y w
  /\ _intercept (refit w x fitting) = _intercept w.
Proof.
  unfold refit.
  destruct (_featurizer w), (_original_featurizer w), fitting;
    repeat split; reflexivity.
Qed.

(** A successful final-stage [_combine] keeps everything but the fitted
    featurizer. *)
Lemma final_combine_ok (w : wrapper) X T fitting D w1 log :
  _combine X T fitting w = Ok D w1 log ->
  log = []
  /\ _model w1 = _model w
  /\ _use_weight_trick w1 = _use_weight_trick w
  /\ _fit_cate_intercept w1 = _fit_cate_intercept w
  /\ _d_t w1 = _d_t w
  /\ _d_y w1 = _d_y w
  /\ (X = None -> _fit_cate_intercept w = true).
Proof.
  destruct X as [x|].
  - rewrite combine_present. intros H. inversion H. subst.
    destruct (refit_keeps w x fitting) as (? & ? & ? & ? & ? & ?).
    repeat split; try assumption. discriminate.
  - rewrite combine_absent.
    destruct (_fit_cate_intercept w) eqn:E;
      [|destruct (_use_weight_trick w); discriminate].
    intros H. inversion H. subst. repeat split; try reflexivity. exact E.
Qed.

(** The ways in which the final-stage [fit] raises. *)
Lemma fit_raise_cases (w : wrapper) X T Y sw sv e s log :
  fit X T Y sw sv w = Raise e s log ->
  s = with_dims w T Y /\ log = []
  /\ (e = UnsupportedTreatmentDimension
      /\ _use_weight_trick w = true /\ multi_column T = true
      \/ is_InfeasibleConfiguration e = true).
Proof.
  intros Hfit.
  destruct (_use_weight_trick w) eqn:Hw.
    - rewrite (fit_weight_trick w X T Y sw sv Hw) in Hfit.
      destruct (_fit_cate_intercept w) eqn:Hfi; cbn [negb] in Hfit.
      + inversion Hfit. subst. repeat split. now right.
      + destruct (multi_column T) eqn:Hm.
        * inversion Hfit. subst. repeat split. left. now repeat split.
        * destruct X as [x|].
          -- rewrite combine_present in Hfit. discriminate.
          -- rewrite combine_absent in Hfit.
             change (_fit_cate_intercept (with_dims w T Y))
               with (_fit_cate_intercept w) in Hfit.
             change (_use_weight_trick (with_dims w T Y))
               with (_use_weight_trick w) in Hfit.
             rewrite Hfi, Hw in Hfit. inversion Hfit. subst.
             repeat split. now right.
    - rewrite (fit_standard w X T Y sw sv Hw) in Hfit.
      destruct X as [x|].
      + rewrite combine_present in Hfit. cbv zeta in Hfit.
        destruct (0 <? count_nonzero _)%nat; discriminate.
      + rewrite combine_absent in Hfit.
        change (_fit_cate_intercept (with_dims w T Y))
          with (_fit_cate_intercept w) in Hfit.
        change (_use_weight_trick (with_dims w T Y))
          with (_use_weight_trick w) in Hfit.
        rewrite Hw in Hfit.
        destruct (_fit_cate_intercept w).
        * cbv zeta in Hfit. destruct (0 <? count_nonzero _)%nat; discriminate.
        * inversion Hfit. subst. repeat split. now right.
Qed.


(** After a [fit] that returned, [predict] on a present [X] returns and
    leaves the wrapper as it is.  In weighting-trick mode such a fit had
    [X] present and records no intercept correction, so the predictions
    are the reshaped outputs of the model, and [predict] without [X]
    raises InfeasibleConfiguration. *)
Theorem predict_after_fit (w : wrapper) X T Y sw sv w' log :
  fit X T Y sw sv w = Ok tt w' log ->
  (forall Xp, exists cate, predict (Some Xp) w' = Ok cate w' [])
  /\ (_use_weight_trick w = true ->
      X <> None
      /\ log = []
      /\ _intercept w' = Some None
      /\ (forall Xp,
            predict (Some Xp) w' =
              Ok (reshape_treatmentwise_effects
                    (model_predict (_model w')
                       (cate_design w' Xp (unit_treatments (tl (shape T)))))
                    (tl (shape T)) (tl (shape Y))) w' [])
      /\ predict None w' =
           Raise InfeasibleConfiguration_weight_trick_X_None w' []).
Proof.
  intros Hfit.
  destruct (_use_weight_trick w) eqn:Hw.
  - rewrite (fit_weight_trick w X T Y sw sv Hw) in Hfit.
    destruct (_fit_cate_intercept w) eqn:Hfi; cbn [negb] in Hfit; [discriminate|].
    destruct (multi_column T); [discriminate|].
    destruct (_combine X (Vec (ones1 (nrows T))) true (with_dims w T Y))
      as [F w1 l|? ? ?] eqn:HC; [|discriminate].
    destruct (final_combine_ok _ _ _ _ _ _ _ HC)
      as (Hl & Hm & Hu & Hf & Hdt & Hdy & HX).
    inversion Hfit. subst w' log. clear Hfit.
    set (w' := set_model (set_intercept w1 None)
                 (model_fit (_model w1) (weight_trick_call F T Y sw sv))).
    assert (Ht' : _d_t w' = Some (tl (shape T))) by exact Hdt.
    assert (Hy' : _d_y w' = Some (tl (shape Y))) by exact Hdy.
    assert (Hi' : _intercept w' = Some None) by reflexivity.
    split.
    + intros Xp. rewrite (predict_fitted w' (Some Xp) _ _ _ Ht' Hy' Hi').
      eexists. reflexivity.
    + intros _. split.
      { intros ->. specialize (HX eq_refl).
        change (_fit_cate_intercept (with_dims w T Y))
          with (_fit_cate_intercept w) in HX. congruence. }
      split; [exact Hl|]. split; [reflexivity|]. split.
      * intros Xp. rewrite (predict_fitted w' (Some Xp) _ _ _ Ht' Hy' Hi').
        reflexivity.
      * rewrite (predict_fitted w' None _ _ _ Ht' Hy' Hi').
        change (_fit_cate_intercept w') with (_fit_cate_intercept w1).
        change (_use_weight_trick w') with (_use_weight_trick w1).
        rewrite Hf, Hu.
        change (_fit_cate_intercept (with_dims w T Y)) with (_fit_cate_intercept w).
        change (_use_weight_trick (with_dims w T Y)) with (_use_weight_trick w).
        rewrite Hfi, Hw. reflexivity.
  - split; [|discriminate].
    rewrite (fit_standard w X T Y sw sv Hw) in Hfit.
    destruct (_combine X T true (with_dims w T Y)) as [fts w1 l|? ? ?] eqn:HC;
      [|discriminate].
    destruct (final_combine_ok _ _ _ _ _ _ _ HC)
      as (Hl & Hm & Hu & Hf & Hdt & Hdy & HX).
    cbv zeta in Hfit. intros Xp.
    destruct (0 <? count_nonzero _)%nat; inversion Hfit; subst w';
      match goal with
      | |- exists _, predict _ ?w0 = _ =>
          erewrite (predict_fitted w0 (Some Xp));
          [eexists; reflexivity | exact Hdt | exact Hdy | reflexivity]
      end.
Qed.

(** The sample weights of the weighting-trick call are the given weights
    times the squared residuals: non-negative when the given weights are,
    which makes the loss non-negative, and zero on every sample whose
    residual is zero, whose target is [Y_i] divided by the clipping
    threshold. *)
Theorem weight_trick_weights (F : matrix) (T Y : ndarray) (sw : option (list Q))
    (sv : option ndarray) :
  (forall w, sw = Some w -> Forall (fun x => 0 <= x) w) ->
  let c := weight_trick_call F T Y sw sv in
  Forall (fun x => 0 <= x) (weights_of c)
  /\ (forall f, 0 <= weighted_loss c f)
  /\ (forall i, (i < length (weights_of c))%nat ->
                nth i (ravel T) 0 == 0 ->
                nth i (weights_of c) 0 == 0
                /\ clip_residual (nth i (ravel T) 0) == eps).
Proof.
  intros Hsw c.
  assert (Hsq : forall t : Q, 0 <= t * t).
  { intros t. destruct (Qlt_le_dec t 0) as [Hd|Hd].
    - setoid_replace (t * t) with ((- t) * (- t)) by ring.
      apply Qmult_le_0_compat; lra.
    - now apply Qmult_le_0_compat. }
  assert (Hnn : Forall (fun x => 0 <= x) (weights_of c)).
  { unfold weights_of, c. cbn [sample_weight weight_trick_call].
    destruct sw as [w|].
    - apply Forall_map2. intros a b Ha Hb.
      specialize (Hsw w eq_refl). rewrite Forall_forall in Hsw.
      apply in_map_iff in Hb as (t & <- & _).
      apply Qmult_le_0_compat; [now apply Hsw | apply Hsq].
    - apply Forall_forall. intros b Hb.
      apply in_map_iff in Hb as (t & <- & _). apply Hsq. }
  split; [exact Hnn|]. split.
  - intros f. now apply weighted_loss_nonneg.
  - intros i Hi Hz. split.
    + revert Hi. unfold weights_of, c. cbn [sample_weight weight_trick_call].
      destruct sw as [w|].
      * rewrite length_map2, length_map. intros Hi.
        rewrite (nth_map2 Qmult w _ i 0 0 0) by (rewrite ?length_map; lia).
        rewrite (nth_map_lt (fun t => t * t) _ i 0 0) by lia.
        rewrite Hz. ring.
      * rewrite length_map. intros Hi.
        rewrite (nth_map_lt (fun t => t * t) _ i 0 0) by lia.
        rewrite Hz. ring.
    + unfold clip_residual, clip_below, sign.
      assert (H0 : Qle_bool 0 (nth i (ravel T) 0) = true)
        by (apply Qle_bool_iff; rewrite Hz; apply Qle_refl).
      assert (H1 : Qle_bool (nth i (ravel T) 0) 0 = true)
        by (apply Qle_bool_iff; rewrite Hz; apply Qle_refl).
      rewrite H0, H1.
      assert (Hc : Qle_bool eps (Qabs (nth i (ravel T) 0)) = false).
      { destruct (Qle_bool eps (Qabs (nth i (ravel T) 0))) eqn:E; [|reflexivity].
        apply Qle_bool_iff in E. rewrite Hz in E.
        unfold Qle in E. simpl in E. lia. }
      rewrite Hc. reflexivity.
Qed.

End FinalStageMore.

(** ** More on the estimators *)

Section EstimatorMore.
Context {Mdl Fz RS : Type} {R : Regressor Mdl} {Tr : Transformer Fz}
        {A : AutoModels Mdl RS}.

(** After an assignment to [model_t] the treatment wrapper of a [DML]
    estimator works as an outcome model, also when the treatment is
    discrete: [fit] returns on every target, without the check of the fold
    and without converting the one-hot block to labels, and [predict]
    returns the model's [predict], not its class probabilities. *)
Theorem model_t_setter_drops_classification (self : DML.t Mdl Fz RS)
    (m : model_spec Mdl) (X W : option matrix) :
  let wt := DML._rlearner_model_t (state_of (DML.model_t_setter m self)) in
  (forall Target sw g,
     exists D w',
       _FirstStageWrapper._combine X W (nrows Target) true wt = Ok D w' []
       /\ _FirstStageWrapper.fit X W Target sw g wt =
            Ok tt (_FirstStageWrapper.set_model w'
                     (fit_with_groups (_FirstStageWrapper._model wt) D Target g sw))
               [])
  /\ exists D,
       _FirstStageWrapper.predict X W wt =
         Ok (model_predict (_FirstStageWrapper._model wt) D) wt [].
Proof.
  intros wt.
  assert (HY : _FirstStageWrapper._is_Y wt = true) by reflexivity.
  split.
  - intros Target sw g.
    rewrite fit_no_conversion by (rewrite HY; reflexivity).
    destruct (combine_state wt X W (nrows Target) true)
      as (D & w' & HC & Hm & _). exists D, w'. split; [exact HC|].
    rewrite HC, Hm. reflexivity.
  - rewrite predict_unfold.
    destruct (combine_state wt X W
                (match X with
                 | Some x => length x
                 | None => match W with Some w0 => length w0 | None => 1%nat end
                 end) false) as (D & w' & HC & _ & _ & _ & _ & Hw).
    rewrite HC, (Hw eq_refl), HY. exists D. reflexivity.
Qed.

(** Assigning [fit_cate_intercept] on a [DML] estimator replaces the final
    wrapper by a new standard-mode wrapper of the same final model and
    featurizer.  The new wrapper is not fitted: [predict] raises until the
    next [fit]; and it never raises UnsupportedTreatmentDimension. *)
Theorem fit_cate_intercept_setter_rebuilds (self : DMLFinalStage.t Mdl Fz RS)
    (b : bool) :
  let self' := state_of (DMLFinalStage.fit_cate_intercept_setter b self) in
  let wf := DMLFinalStage._rlearner_model_final self' in
  DMLFinalStage.fit_cate_intercept_setter b self = Ok tt self' []
  /\ DMLFinalStage._fit_cate_intercept self' = b
  /\ DMLFinalStage._model_final self' = DMLFinalStage._model_final self
  /\ wf = _FinalWrapper.__init__ (DMLFinalStage._model_final self) b
            (DML._featurizer (DMLFinalStage.first_stage self)) false
  /\ (forall X, _FinalWrapper.predict X wf = Raise NotFitted wf [])
  /\ (forall X T Y sw sv s log,
        _FinalWrapper.fit X T Y sw sv wf
        <> Raise UnsupportedTreatmentDimension s log)
  /\ (forall T Y sw sv,
        if b
        then exists w' log, _FinalWrapper.fit None T Y sw sv wf = Ok tt w' log
        else exists s,
               _FinalWrapper.fit None T Y sw sv wf =
                 Raise InfeasibleConfiguration_X_None_no_intercept s []).
Proof.
  intros self' wf.
  split; [reflexivity|]. split; [reflexivity|]. split; [reflexivity|].
  split; [reflexivity|]. split; [reflexivity|]. split.
  - intros X T Y sw sv s log Hf.
    destruct (fit_raise_cases wf X T Y sw sv _ _ _ Hf)
      as (_ & _ & [(_ & Hu & _)|He]); discriminate.
  - intros T Y sw sv.
    rewrite (fit_standard wf None T Y sw sv eq_refl), combine_absent.
    change (_FinalWrapper._fit_cate_intercept (with_dims wf T Y)) with b.
    destruct b.
    + cbv zeta. destruct (0 <? count_nonzero _)%nat; do 2 eexists; reflexivity.
    + eexists. reflexivity.
Qed.

End EstimatorMore.

Section NonParamEstimator.
Context {Mdl Fz : Type} {R : Regressor Mdl} {Tr : Transformer Fz}.
Variable featurizer : NonParamDML.t Mdl Fz -> option Fz.
Variable discrete_treatment : NonParamDML.t Mdl Fz -> bool.

(** [NonParamDML.__init__] builds the outcome wrapper with [is_Y] set, the
    setter of [model_y] builds it with [is_Y] unset.  When the estimator's
    treatment is discrete, the wrapper from the setter treats the outcome
    as a one-hot treatment: [fit] on an outcome vector always raises, and
    on an outcome matrix it raises InvalidFoldSplit or fits the model on
    labels computed from the outcome.  When the treatment is continuous
    the flag has no effect and the model is fitted on the outcome. *)
Theorem nonparam_model_y_setter_wrapper (self : NonParamDML.t Mdl Fz) (m : Mdl)
    (X W : option matrix) (sw : option (list Q)) (g : option (list nat)) :
  let self1 := NonParamDML.set__model_y self (clone m) in
  let wy := NonParamDML._rlearner_model_y
              (state_of (NonParamDML.model_y_setter featurizer discrete_treatment
                           m self)) in
  NonParamDML.model_y_setter featurizer discrete_treatment m self
    = Ok tt (NonParamDML.set__rlearner_model_y self1 wy) []
  /\ _FirstStageWrapper._is_Y wy = false
  /\ (forall fz d, _FirstStageWrapper._is_Y (NonParamDML.init_model_y m fz d) = true)
  /\ (discrete_treatment self1 = true ->
      (forall v, exists e,
         _FirstStageWrapper.fit X W (Vec v) sw g wy = Raise e wy []
         /\ (e = InvalidFoldSplit \/ e = ShapeError))
      /\ (forall mm,
            _FirstStageWrapper.fit X W (Mat mm) sw g wy
              = Raise InvalidFoldSplit wy []
            \/ _FirstStageWrapper.fit X W (Mat mm) sw g wy
               = Ok tt (_FirstStageWrapper.set_model wy
                          (fit_with_groups (_FirstStageWrapper._model wy)
                             (plain_block X W (length mm)) (labels_of mm) g sw))
                    []))
  /\ (discrete_treatment self1 = false ->
      forall Target,
        _FirstStageWrapper.fit X W Target sw g wy
        = Ok tt (_FirstStageWrapper.set_model wy
                   (fit_with_groups (_FirstStageWrapper._model wy)
                      (plain_block X W (nrows Target)) Target g sw)) []).
Proof.
  intros self1 wy.
  assert (HY : _FirstStageWrapper._is_Y wy = false) by reflexivity.
  assert (HD : _FirstStageWrapper._discrete_treatment wy = discrete_treatment self1)
    by reflexivity.
  split; [reflexivity|]. split; [exact HY|]. split; [reflexivity|]. split.
  - intros Hd. rewrite Hd in HD. split.
    + intros v. unfold _FirstStageWrapper.fit. unfold bind at 1. unfold get at 1.
      rewrite HY, HD. cbn [negb andb]. unfold bind at 1.
      unfold _FirstStageWrapper.labels_checked.
      destruct (forallb is_zero v); eexists; (split; [reflexivity|]);
        [now left | now right].
    + intros mm. rewrite (fit_treatment_discrete wy X W mm sw g HY HD).
      destruct (any_all_zero_axis0 mm || negb (any_all_zero_axis1 mm));
        [now left|right].
      rewrite (combine_plain wy X W (length mm) true)
        by (left; rewrite HY; reflexivity).
      reflexivity.
  - intros Hd Target. rewrite Hd in HD.
    rewrite fit_no_conversion by (rewrite HD; apply andb_false_r).
    rewrite (combine_plain wy X W (nrows Target) true)
      by (left; rewrite HY; reflexivity).
    reflexivity.
Qed.

End NonParamEstimator.

Section Probes.
Context {Mdl Fz : Type} {R : Regressor Mdl} {Tr : Transformer Fz}.
Import _FinalWrapper.

(** The design of [fit] and the design of [predict] fit together.  On a
    wrapper without featurizer and without intercept column, a linear model
    evaluated on the training row of sample [i] is the sum over the
    treatments of the residual [T_it] times the same model evaluated on the
    row that [predict] builds for [X_i] and the [t]-th unit treatment: what
    [predict] reads off the model are the per-treatment effects. *)
Theorem probes_recover_effects (w : _FinalWrapper.t Mdl Fz) (X T : matrix)
    (k i : nat) (beta : list Q) :
  _featurizer w = original_featurizer -> _original_featurizer w = None ->
  length T = length X -> Forall (fun r => length r = k) T ->
  (i < length X)%nat ->
  _combine (Some X) (Mat T) true w = Ok (cross_product X (Mat T)) w []
  /\ dot (nth i (cross_product X (Mat T)) []) beta
     == sum (map (fun t => nth t (nth i T []) 0
                           * dot (nth (i * k + t) (cate_design w X k) []) beta)
                 (seq 0 k)).
Proof.
  intros Hk Ho HlT Hrows Hi.
  assert (Hfeat : forall x b, features w x b = x).
  { intros x b. unfold features. now rewrite Hk, Ho. }
  split.
  - rewrite combine_present, Hfeat. unfold refit. now rewrite Hk, Ho.
  - unfold cross_product at 1. cbn [rows_of].
    rewrite (nth_map2 cross_row X T i [] [] []) by lia.
    assert (HTi : length (nth i T []) = k).
    { rewrite Forall_forall in Hrows. apply Hrows, nth_In. lia. }
    rewrite dot_cross_row_unit_vectors, HTi.
    apply sum_map_ext. intros t Ht. apply in_seq in Ht.
    unfold cate_design, cross_product. cbn [rows_of]. rewrite Hfeat.
    destruct (broadcast_unit_treatments_length X k) as [Hl1 Hl2].
    destruct (broadcast_unit_treatments_rows X k i t Hi) as [Hr1 Hr2]; [lia|].
    rewrite (nth_map2 cross_row _ _ (i * k + t) [] [] [])
      by (rewrite ?Hl1, ?Hl2; nia).
    rewrite Hr1, Hr2. reflexivity.
Qed.

End Probes.

(** ** The effect tensor of [predict] *)

Lemma ravel_single_column (A : ndarray) :
  Forall (fun r => length r = 1%nat) (rows_of A) ->
  ravel A = map (fun r => nth 0 r 0) (rows_of A).
Proof.
  destruct A as [v|m]; simpl.
  - intros _. rewrite map_map. simpl. now rewrite map_id.
  - induction m as [|r m IH]; intros H; [reflexivity|].
    inversion H as [|? ? Hr Hm]; subst. simpl.
    destruct r as [|x [|? ?]]; try discriminate. simpl. f_equal. now apply IH.
Qed.

(** The rows of a prediction after the intercept correction. *)
Lemma rows_subtract_intercept (A : ndarray) (c : option ndarray) (m : nat) :
  Forall (fun r => length r = m) (rows_of A) ->
  (forall ic, c = Some ic -> length (ravel ic) = m) ->
  let P' := rows_of (subtract_intercept c A) in
  length P' = length (rows_of A)
  /\ Forall (fun r => length r = m) P'
  /\ forall j y, (j < length (rows_of A))%nat -> (y < m)%nat ->
       nth y (nth j P' []) 0 = corrected c y (nth y (nth j (rows_of A) []) 0).
Proof.
  intros Hrows Hc P'. subst P'.
  destruct c as [ic|]; [|simpl; repeat split; auto].
  specialize (Hc ic eq_refl).
  destruct A as [v|M]; simpl in *.
  - rewrite !length_map.
    assert (Hm : v <> [] -> m = 1%nat).
    { destruct v as [|x v]; [congruence|]. intros _.
      inversion Hrows as [|? ? H1 H2]. simpl in H1. lia. }
    split; [reflexivity|]. split.
    + apply Forall_forall. intros r Hin.
      apply in_map_iff in Hin. destruct Hin as (q & <- & Hq).
      apply in_map_iff in Hq. destruct Hq as (p0 & _ & Hp0).
      symmetry. apply Hm. intros ->. contradiction.
    + intros j y Hj Hy.
      assert (m = 1%nat) by (apply Hm; intros ->; simpl in Hj; lia).
      assert (y = 0%nat) by lia. subst m y.
      rewrite (nth_map_lt (fun y => [y]) _ j 0 []) by (now rewrite length_map).
      rewrite (nth_map_lt _ v j 0 0) by exact Hj.
      rewrite (nth_map_lt (fun y => [y]) v j 0 []) by exact Hj.
      reflexivity.
  - rewrite length_map. split; [reflexivity|]. split.
    + apply Forall_forall. intros r Hin.
      apply in_map_iff in Hin. destruct Hin as (q & <- & Hq).
      rewrite Forall_forall in Hrows. rewrite length_map2, (Hrows q Hq), Hc. lia.
    + intros j y Hj Hy.
      rewrite (nth_map_lt (fun r => map2 Qminus r (ravel ic)) M j [] []) by exact Hj.
      assert (Hr : length (nth j M []) = m).
      { rewrite Forall_forall in Hrows. apply Hrows. apply nth_In. exact Hj. }
      apply nth_map2; [lia | rewrite Hc; lia].
Qed.

(** The shape and the entries of the reshaped, intercept-corrected
    prediction, for residuals that were blocks or vectors. *)
Lemma reshape_effects (A : ndarray) (c : option ndarray) (d_t d_y : list nat)
    (n : nat) :
  (length d_t <= 1)%nat -> (length d_y <= 1)%nat ->
  (1 <= unit_treatments d_t)%nat ->
  length (rows_of A) = (n * unit_treatments d_t)%nat ->
  Forall (fun r => length r = outcomes d_y) (rows_of A) ->
  (forall ic, c = Some ic -> length (ravel ic) = outcomes d_y) ->
  let R := reshape_treatmentwise_effects (subtract_intercept c A) d_t d_y in
  has_shape R (n :: d_y ++ d_t)
  /\ forall i y t,
       (i < n)%nat -> (y < outcomes d_y)%nat -> (t < unit_treatments d_t)%nat ->
       effect R d_t i y t
       = corrected c y (nth y (nth (i * unit_treatments d_t + t) (rows_of A) []) 0).
Proof.
  intros Ht Hy Hk HlP Hrows Hc R.
  destruct (rows_subtract_intercept A c (outcomes d_y) Hrows Hc)
    as (HlP' & HwP' & HeP').
  subst R. set (A' := subtract_intercept c A) in *.
  rewrite HlP in HeP'. rewrite HlP in HlP'.
  destruct d_t as [|k [|? ?]]; [| |simpl in Ht; lia];
    (destruct d_y as [|m [|? ?]]; [| |simpl in Hy; lia]);
    cbn [unit_treatments outcomes app] in *.
  - (* vector treatment, vector outcome *)
    pose proof (ravel_single_column A' HwP') as Hv.
    cbn [reshape_treatmentwise_effects has_shape effect]. split.
    + rewrite Hv, length_map, HlP'. lia.
    + intros i y t Hi Hy0 Ht0.
      assert (y = 0%nat) by lia. assert (t = 0%nat) by lia. subst y t.
      rewrite Hv, (nth_map_lt _ _ i [] 0) by lia.
      rewrite HeP' by lia. repeat f_equal; lia.
  - (* vector treatment, outcome block *)
    cbn [reshape_treatmentwise_effects has_shape effect]. split.
    + split; [lia | exact HwP'].
    + intros i y t Hi Hy0 Ht0. assert (t = 0%nat) by lia. subst t.
      rewrite HeP' by lia. repeat f_equal; lia.
  - (* treatment block, vector outcome *)
    pose proof (ravel_single_column A' HwP') as Hv.
    assert (Hlv : length (ravel A') = (n * k)%nat)
      by (rewrite Hv, length_map; exact HlP').
    assert (Hn : (n * k / k)%nat = n) by (apply Nat.div_mul; lia).
    cbn [reshape_treatmentwise_effects has_shape effect].
    rewrite Hlv, Hn. split.
    + split; [now rewrite length_map, length_seq|].
      apply Forall_forall. intros r Hin.
      apply in_map_iff in Hin. destruct Hin as (i & <- & _).
      now rewrite length_map, length_seq.
    + intros i y t Hi Hy0 Ht0. assert (y = 0%nat) by lia. subst y.
      rewrite (nth_map_seq _ n i) by exact Hi.
      rewrite (nth_map_seq _ k t) by exact Ht0.
      rewrite Hv, (nth_map_lt _ _ (i * k + t) [] 0) by (rewrite HlP'; nia).
      apply HeP'; [nia | lia].
  - (* treatment block, outcome block *)
    assert (Hn : (n * k / k)%nat = n) by (apply Nat.div_mul; lia).
    cbn [reshape_treatmentwise_effects has_shape effect].
    rewrite HlP', Hn. split.
    + split; [now rewrite length_map, length_seq|].
      apply Forall_forall. intros M Hin.
      apply in_map_iff in Hin. destruct Hin as (i & <- & _).
      split; [now rewrite length_map, length_seq|].
      apply Forall_forall. intros r Hin.
      apply in_map_iff in Hin. destruct Hin as (y & <- & _).
      now rewrite length_map, length_seq.
    + intros i y t Hi Hy0 Ht0.
      rewrite (nth_map_seq _ n i) by exact Hi.
      rewrite (nth_map_seq _ m y) by exact Hy0.
      rewrite (nth_map_seq _ k t) by exact Ht0.
      apply HeP'; [nia | exact Hy0].
Qed.

Lemma length_tl_shape (A : ndarray) : (length (tl (shape A)) <= 1)%nat.
Proof. destruct A; simpl; lia. Qed.

Section EffectTensor.
Context {Mdl Fz : Type} {R : Regressor Mdl} {Tr : Transformer Fz}.
Import _FinalWrapper.

Local Notation "'wrapper'" := (_FinalWrapper.t Mdl Fz).

(** What a [fit] that returned has recorded. *)
Lemma fit_ok_state (w : wrapper) X T Y sw sv w' log :
  fit X T Y sw sv w = Ok tt w' log ->
  _d_t w' = Some (tl (shape T))
  /\ _d_y w' = Some (tl (shape Y))
  /\ _intercept w' = Some (intercept_of w')
  /\ (X = None -> _fit_cate_intercept w' = true).
Proof.
  intros Hfit.
  destruct (_use_weight_trick w) eqn:Hw.
  - rewrite (fit_weight_trick w X T Y sw sv Hw) in Hfit.
    destruct (_fit_cate_intercept w) eqn:Hfi; cbn [negb] in Hfit; [discriminate|].
    destruct (multi_column T); [discriminate|].
    destruct (_combine X (Vec (ones1 (nrows T))) true (with_dims w T Y))
      as [F w1 l|? ? ?] eqn:HC; [|discriminate].
    destruct (final_combine_ok _ _ _ _ _ _ _ HC)
      as (Hl & Hm & Hu & Hf & Hdt & Hdy & HX).
    inversion Hfit. subst w' log.
    refine (conj Hdt (conj Hdy (conj eq_refl _))).
    intros HXn. specialize (HX HXn).
    change (_fit_cate_intercept (with_dims w T Y)) with (_fit_cate_intercept w) in HX.
    congruence.
  - rewrite (fit_standard w X T Y sw sv Hw) in Hfit.
    destruct (_combine X T true (with_dims w T Y)) as [fts w1 l|? ? ?] eqn:HC;
      [|discriminate].
    destruct (final_combine_ok _ _ _ _ _ _ _ HC)
      as (Hl & Hm & Hu & Hf & Hdt & Hdy & HX).
    cbv zeta in Hfit.
    destruct (0 <? count_nonzero _)%nat; inversion Hfit; subst w' log;
      (refine (conj Hdt (conj Hdy (conj eq_refl _)));
       intros HXn; specialize (HX HXn);
       change (_fit_cate_intercept (with_dims w T Y))
         with (_fit_cate_intercept w) in HX;
       cbn; rewrite Hf; exact HX).
Qed.


End EffectTensor.


(** ** Worked runs of the further properties *)

Lemma panel_reshape_keeps_order_witness :
  panel.entries (T2 [[1; 2]; [3; 4]]) = panel.entries (T3 [[[1; 2]; [3; 4]]]).
Proof.
  apply (panel_reshape_keeps_order (T3 [[[1; 2]; [3; 4]]]) (T2 [[1; 2]; [3; 4]])).
  left. reflexivity.
Defined.

Lemma panel_wide_after_long_witness :
  panel.wide (T1 (concat [[1; 2]; [3; 4]]))
  = panel.Reshaped (T2 (map (fun y => [y]) (concat [[1; 2]; [3; 4]]))).
Proof.
  refine (proj1 (proj2 (panel_wide_after_long [[1; 2]; [3; 4]] 2 _ _ _))).
  - discriminate.
  - lia.
  - repeat constructor.
Defined.

Lemma score_refits_featurizer_witness :
  exists r,
    _FirstStageWrapper.score (R := ols2) (Tr := counting_featurizer)
      (Some ex_X) None ex_Y None
      (_FirstStageWrapper.__init__ (R := ols2) (Tr := counting_featurizer)
         unfitted true (Some 0%nat) true false)
    = Ok (Some r)
        (_FirstStageWrapper.set_featurizer
           (_FirstStageWrapper.__init__ (R := ols2) (Tr := counting_featurizer)
              unfitted true (Some 0%nat) true false) 1%nat) [].
Proof.
  eexists.
  refine (proj1 (score_refits_featurizer (R := ols2) (Tr := counting_featurizer)
                   (_FirstStageWrapper.__init__ (R := ols2)
                      (Tr := counting_featurizer)
                      unfitted true (Some 0%nat) true false)
                   ex_X None ex_Y None 0%nat _ eq_refl eq_refl eq_refl eq_refl)).
Defined.

Lemma predict_drops_redundant_baseline_witness :
  exists P,
    _FirstStageWrapper.predict (R := ols2) (Tr := counting_featurizer)
      (Some [[1]; [2]]) None treatment_classifier
    = Ok (Mat (map (skipn 1) P)) treatment_classifier [].
Proof.
  eexists.
  refine (proj1 (predict_drops_redundant_baseline (R := ols2)
                   (Tr := counting_featurizer) treatment_classifier
                   (Some [[1]; [2]]) None eq_refl eq_refl)).
Defined.


Lemma predict_after_fit_witness :
  _FinalWrapper.predict (R := ols2) (Tr := counting_featurizer) None
    (state_of (_FinalWrapper.fit (R := ols2) (Tr := counting_featurizer)
                 (Some ex_X) ex_T ex_Y None None (trick_wrapper false)))
  = Raise InfeasibleConfiguration_weight_trick_X_None
      (state_of (_FinalWrapper.fit (R := ols2) (Tr := counting_featurizer)
                   (Some ex_X) ex_T ex_Y None None (trick_wrapper false))) [].
Proof.
  destruct (predict_after_fit (R := ols2) (Tr := counting_featurizer)
              (trick_wrapper false) (Some ex_X) ex_T ex_Y None None
              (state_of (_FinalWrapper.fit (R := ols2) (Tr := counting_featurizer)
                           (Some ex_X) ex_T ex_Y None None (trick_wrapper false)))
              [] eq_refl) as (_ & Ht).
  destruct (Ht eq_refl) as (_ & _ & _ & _ & Hp). exact Hp.
Defined.

Lemma weight_trick_weights_witness :
  Forall (fun x => 0 <= x)
    (weights_of (_FinalWrapper.weight_trick_call ex_X ex_T ex_Y None None)).
Proof.
  refine (proj1 (weight_trick_weights ex_X ex_T ex_Y None None _)).
  intros w H. discriminate H.
Defined.

Lemma probes_recover_effects_witness :
  dot (nth 1 (cross_product ex_X (Mat [[2; 5]; [1; 7]])) []) [10; 100]
  == sum (map (fun t => nth t (nth 1 [[2; 5]; [1; 7]] []) 0
                        * dot (nth (1 * 2 + t)
                                 (cate_design (Tr := counting_featurizer)
                                    (standard_wrapper false) ex_X 2) [])
                              [10; 100])
              (seq 0 2)).
Proof.
  refine (proj2 (probes_recover_effects (Tr := counting_featurizer)
                   (standard_wrapper false) ex_X [[2; 5]; [1; 7]] 2 1 [10; 100]
                   eq_refl eq_refl eq_refl _ _)).
  - repeat constructor.
  - simpl. lia.
Defined.
